(** * Ellipsoidal one-step and multi-step reachability (gp_reachability.py)

    A shallow embedding of [onestep_reachability] and [multistep_reachability]
    from [src/gp_ellipsoidal_reachability/gp_reachability.py].

    Conventions of the embedding.
    - numpy arrays are dynamically shaped: a 2-d array is a list of rows, a
      1-d array a list of numbers.  The numpy operations used by the source
      check shapes at run time and raise [ValueError]; they are embedded as
      functions into [exn + _].  The column count of an array is read off
      its first row, so that the empty list stands for the array of shape
      (0, 0) only: an array with no row and [n > 0] columns has no counterpart
      here.  Statements that turn on a column count are made of arrays with
      at least one row.
    - the entries are kept abstract ([Scalar]): the embedding fixes which
      arithmetic operations are applied and in which order, not how the
      machine rounds them.  Laws of exact arithmetic are separate classes and
      are assumed only by the statements that need them.
    - the source prints diagnostics.  The embedding threads a log of what is
      printed through a small writer/error monad [M].
    - [gp] (the predictive model) and the helpers imported from
      [utils_ellipsoid] and [utils] are not part of the file embedded here.
      They are taken as parameters: [GP] is the two-method interface of the
      model, [EllipsoidUtils] the imported helpers.  For one query row the
      model returns arrays of shape (1, n) and (1, n_s, n_s + n_u); they are
      represented by their only row, respectively their only slab. *)

From Stdlib Require Import String Ascii Bool ZArith Lia List.
From Stdlib Require Reals Lra.

#[global] Set Warnings "-notation-for-abbreviation".
Import ListNotations.

(** * Part I: the embedding *)

(** ** Exceptions *)

(** The numpy operation at which a shape error is raised. *)
Inductive numpy_op := Dot | Broadcast | Vstack | Diag.

Inductive exn :=
| ValueError (op : numpy_op)
| IndexError
| NotImplementedError (msg : string).

(** ** Scalars *)

Class Scalar := {
  num : Type;
  fzero : num;
  fadd : num -> num -> num;
  fsub : num -> num -> num;
  fmul : num -> num -> num;
  fsqrt : num -> num
}.

(** Laws of exact arithmetic used for cancellation. *)
Class ExactArith (SC : Scalar) := {
  fsub_diag : forall x : num, fsub x x = fzero;
  fmul_zero_r : forall x : num, fmul x fzero = fzero;
  fadd_zero_r : forall x : num, fadd x fzero = x
}.

(** An order on the scalars, compatible with multiplication. *)
Class OrderedArith (SC : Scalar) := {
  fle : num -> num -> Prop;
  fle_refl : forall x : num, fle x x;
  fle_trans : forall x y z : num, fle x y -> fle y z -> fle x z;
  fmul_le_mono_l : forall c1 c2 v : num,
      fle fzero v -> fle c1 c2 -> fle (fmul v c1) (fmul v c2);
  fmul_le_mono_r : forall c1 c2 v : num,
      fle fzero v -> fle c1 c2 -> fle (fmul c1 v) (fmul c2 v)
}.

(** Zero absorbs products. *)
Class AbsorbingZero (SC : Scalar) := {
  fmul_zero_absorb : forall x : num, fmul x fzero = fzero
}.

(** ** Generic list helpers *)

Fixpoint zip_with {A B C} (f : A -> B -> C) (l1 : list A) (l2 : list B) : list C :=
  match l1, l2 with
  | a :: l1', b :: l2' => f a b :: zip_with f l1' l2'
  | _, _ => []
  end.

(** numpy broadcasting of one axis: equal lengths, or one of them is 1. *)
Definition bdim (a b : nat) : option nat :=
  if Nat.eqb a b then Some a
  else if Nat.eqb a 1 then Some b
  else if Nat.eqb b 1 then Some a
  else None.

(** An axis of length 1 is repeated to the broadcast length. *)
Definition stretch {A} (n : nat) (l : list A) : list A :=
  match l with
  | [x] => repeat x n
  | _ => l
  end.

Section Arrays.
Context {SC : Scalar}.

Definition vec := list num.
Definition mat := list (list num).

Definition nrows (m : mat) : nat := length m.
Definition ncols (m : mat) : nat := length (hd [] m).

(** [np.shape] of a 2-d array. *)
Definition np_shape (m : mat) : nat * nat := (nrows m, ncols m).

(** [m] is a rectangular array with [r] rows and [c] columns. *)
Definition shape (r c : nat) (m : mat) : Prop :=
  length m = r /\ Forall (fun row => length row = c) m.

Definition column (j : nat) (m : mat) : vec := map (fun row => nth j row fzero) m.

(** [m.T] *)
Definition transpose (m : mat) : mat := map (fun j => column j m) (seq 0 (ncols m)).

(** A 1-d array as an (n, 1) column and as a (1, n) row. *)
Definition as_column (v : vec) : mat := map (fun x => [x]) v.
Definition as_row (v : vec) : mat := [v].

Definition dotp (u v : vec) : num := fold_right fadd fzero (zip_with fmul u v).

(** Matrix product, entries only. *)
Definition mmul (a b : mat) : mat :=
  map (fun row => map (fun j => dotp row (column j b)) (seq 0 (ncols b))) a.

(** [np.dot] of two 2-d arrays. *)
Definition np_dot (a b : mat) : exn + mat :=
  if Nat.eqb (ncols a) (nrows b) then inr (mmul a b)
  else inl (ValueError Dot).

(** Elementwise binary operation on 2-d arrays with numpy broadcasting. *)
Definition broadcast2 (f : num -> num -> num) (a b : mat) : exn + mat :=
  match bdim (nrows a) (nrows b), bdim (ncols a) (ncols b) with
  | Some r, Some c =>
      inr (zip_with (fun ra rb => zip_with f (stretch c ra) (stretch c rb))
                    (stretch r a) (stretch r b))
  | _, _ => inl (ValueError Broadcast)
  end.

Definition np_add := broadcast2 fadd.
Definition np_sub := broadcast2 fsub.

(** Elementwise binary operation on 1-d arrays with numpy broadcasting. *)
Definition broadcast1 (f : num -> num -> num) (u v : vec) : exn + vec :=
  match bdim (length u) (length v) with
  | Some n => inr (zip_with f (stretch n u) (stretch n v))
  | None => inl (ValueError Broadcast)
  end.

(** [np.vstack] of two 2-d arrays. *)
Definition np_vstack (a b : mat) : exn + mat :=
  if Nat.eqb (ncols a) (ncols b) then inr (a ++ b)
  else inl (ValueError Vstack).

(** [np.zeros((r, c))] *)
Definition zeros (r c : nat) : mat := repeat (repeat fzero c) r.

(** The diagonal matrix of a 1-d array. *)
Definition diag_matrix (v : vec) : mat :=
  map (fun i => map (fun j => if Nat.eqb i j then nth i v fzero else fzero)
                    (seq 0 (length v)))
      (seq 0 (length v)).

(** The result of [.squeeze()] on an array of shape (1, n): every axis of
    length 1 is dropped, so a single entry becomes a 0-d array. *)
Inductive squeezed :=
| Arr0 (x : num)
| Arr1 (v : vec).

Definition squeeze (row : vec) : squeezed :=
  match row with
  | [x] => Arr0 x
  | _ => Arr1 row
  end.

(** [a * c] for a scalar [c]. *)
Definition scale_r (a : squeezed) (c : num) : squeezed :=
  match a with
  | Arr0 x => Arr0 (fmul x c)
  | Arr1 v => Arr1 (map (fun x => fmul x c) v)
  end.

(** [np.diag]: a 1-d array gives the diagonal matrix; a 0-d array is refused
    ("Input must be 1- or 2-d."). *)
Definition np_diag (a : squeezed) : exn + mat :=
  match a with
  | Arr0 _ => inl (ValueError Diag)
  | Arr1 v => inr (diag_matrix v)
  end.

(** ** Diagnostics and the monad of the embedding *)

Inductive event :=
| Print (s : string)
| PrintArray (a : mat)
| PrintEllipsoid (p q : mat) (text : string).

Definition M (A : Type) : Type := list event * (exn + A).

Definition ret {A} (a : A) : M A := ([], inr a).

Definition bind {A B} (m : M A) (f : A -> M B) : M B :=
  match m with
  | (t, inl e) => (t, inl e)
  | (t, inr a) => let (t', r) := f a in (t ++ t', r)
  end.

Definition raise {A} (e : exn) : M A := ([], inl e).

Definition lift {A} (r : exn + A) : M A := ([], r).

Definition emit (e : event) : M unit := ([e], inr tt).

Definition when (b : bool) (m : M unit) : M unit := if b then m else ret tt.

(** [print(...)] of a string, of an array, and the helper [print_ellipsoid]
    imported from [utils]. *)
Definition print (s : string) : M unit := emit (Print s).
Definition print_array (a : mat) : M unit := emit (PrintArray a).
Definition print_ellipsoid (p q : mat) (text : string) : M unit :=
  emit (PrintEllipsoid p q text).


(** Entrywise sum and difference of two arrays of the same shape, and the
    entry of an array at a position (zero outside the array). *)
Definition madd (a b : mat) : mat := zip_with (zip_with fadd) a b.
Definition msub (a b : mat) : mat := zip_with (zip_with fsub) a b.
Definition entry (i j : nat) (m : mat) : num := nth j (nth i m []) fzero.

End Arrays.

Declare Scope reach_scope.
Notation "x <- c1 ;; c2" := (bind c1 (fun x => c2))
  (at level 61, c1 at next level, right associativity) : reach_scope.
Notation "c1 ;; c2" := (bind c1 (fun _ => c2))
  (at level 61, right associativity) : reach_scope.
Open Scope reach_scope.

(** ** The predictive model and the imported helpers *)

(** [gp.predict(z)] returns mean and variance, [gp.predictive_gradients(z)]
    the Jacobian of the mean. *)
Record GP {SC : Scalar} := {
  predict : mat -> vec * vec;
  predictive_gradients : mat -> mat
}.

(** [sum_ellipsoids], [ellipsoid_from_box] (from [utils_ellipsoid]) and
    [compute_bounding_box_lagrangian] (from [utils]). *)
Class EllipsoidUtils {SC : Scalar} := {
  sum_ellipsoids : mat -> mat -> mat -> mat -> mat * mat;
  ellipsoid_from_box : vec -> vec -> bool -> mat;
  compute_bounding_box_lagrangian :
    mat -> mat -> vec -> mat -> mat -> nat -> Z -> vec * vec
}.

Section Reachability.
Context {SC : Scalar} {U : EllipsoidUtils}.

Definition newline : string := String (ascii_of_nat 10) EmptyString.

(** [onestep_reachability(p_center, gp, K, k, L_mu, L_sigm, q_shape, c_safety, verbose)] *)
Definition onestep_reachability (p_center : mat) (gp : GP) (K k : mat)
    (L_mu L_sigm : vec) (q_shape : option mat) (c_safety : num) (verbose : Z)
  : M (mat * mat) :=
  when (0 <? verbose)%Z
       (match q_shape with
        | Some q => print_ellipsoid p_center q "initial uncertainty ellipsoid"%string
        | None => ret tt
        end) ;;
  let '(n_u, n_s) := np_shape K in
  match q_shape with
  | None =>
      (* the state is a point *)
      Kp <- lift (np_dot K p_center) ;;
      u_p <- lift (np_add Kp k) ;;
      when (0 <? verbose)%Z
           (print (newline ++ "Applying action:")%string ;; print_array u_p) ;;
      z_bar <- lift (np_vstack p_center u_p) ;;
      let '(p_new, q_new_unscaled) := predict gp (transpose z_bar) in
      q_1 <- lift (np_diag (scale_r (squeeze q_new_unscaled) c_safety)) ;;
      p_1 <- lift (np_add p_center (transpose (as_row p_new))) ;;
      when (0 <? verbose)%Z
           (print_ellipsoid p_1 q_1 "uncertainty first state"%string) ;;
      ret (p_1, q_1)
  | Some q_shape =>
      (* the state is a (ellipsoid) set *)
      let x_bar := p_center in
      let u_bar := k in
      z_bar <- lift (np_vstack x_bar u_bar) ;;
      when (0 <? verbose)%Z
           (print (newline ++ "Applying action:")%string ;; print_array u_bar) ;;
      let '(mu_0, sigm_0) := predict gp (transpose z_bar) in
      when (0 <? verbose)%Z
           (d <- lift (np_diag (squeeze sigm_0)) ;;
            print_ellipsoid (as_row mu_0) d "predictive distribution"%string) ;;
      let Jac_mu := predictive_gradients gp (transpose z_bar) in
      let A_mu := map (firstn n_s) Jac_mu in
      let B_mu := map (skipn n_s) Jac_mu in
      BK <- lift (np_dot B_mu K) ;;
      H <- lift (np_add A_mu BK) ;;
      du <- lift (np_sub k u_bar) ;;
      Bdu <- lift (np_dot B_mu du) ;;
      p_0 <- lift (np_add (transpose (as_row mu_0)) Bdu) ;;
      qHt <- lift (np_dot q_shape (transpose H)) ;;
      Q_0 <- lift (np_dot H qHt) ;;
      when (0 <? verbose)%Z
           (print_ellipsoid p_0 Q_0 "linear transformation uncertainty"%string) ;;
      let '(lb_mean, ub_mean) :=
        compute_bounding_box_lagrangian p_center q_shape L_mu K k 2 verbose in
      let '(lb_sigm, ub_sigm) :=
        compute_bounding_box_lagrangian p_center q_shape L_sigm K k 1 verbose in
      s <- lift (broadcast1 fadd ub_sigm (map fsqrt sigm_0)) ;;
      let Q_lagrange_sigm :=
        diag_matrix (map (fun x => fmul c_safety (fmul x x)) s) in
      let p_lagrange_sigm := zeros n_s 1 in
      when (0 <? verbose)%Z
           (print_ellipsoid p_lagrange_sigm Q_lagrange_sigm
                            "overapproximation lagrangian sigma"%string) ;;
      let Q_lagrange_mu := ellipsoid_from_box lb_mean ub_mean true in
      let p_lagrange_mu := zeros n_s 1 in
      when (0 <? verbose)%Z
           (print_ellipsoid p_lagrange_mu Q_lagrange_mu
                            "overapproximation lagrangian mu"%string) ;;
      let '(p_sum_lagrange, Q_sum_lagrange) :=
        sum_ellipsoids p_lagrange_sigm Q_lagrange_sigm p_lagrange_mu Q_lagrange_mu in
      let '(p_new, Q_new) := sum_ellipsoids p_sum_lagrange Q_sum_lagrange p_0 Q_0 in
      print_ellipsoid p_new Q_new "accumulated uncertainty current step"%string ;;
      let '(p_1, q_1) := sum_ellipsoids p_new Q_new p_center q_shape in
      print_ellipsoid p_1 q_1 "sum old and new uncertainty"%string ;;
      ret (p_1, q_1)
  end.

(** [multistep_reachability(p_0, gp, K, k, L_mu, L_sigm, q_0, c_safety, verbose)].
    [K] is an array of shape (n, n_u, n_s), [k] of shape (n, n_u). *)
Definition multistep_reachability (p_0 : mat) (gp : GP) (K : list mat) (k : mat)
    (L_mu L_sigm : vec) (q_0 : option mat) (c_safety : num) (verbose : Z)
  : M (mat * mat) :=
  K_0 <- lift (match K with K_0 :: _ => inr K_0 | [] => inl IndexError end) ;;
  k_0 <- lift (match k with r :: _ => inr (as_column r) | [] => inl IndexError end) ;;
  r <- onestep_reachability p_0 gp K_0 k_0 L_mu L_sigm None c_safety verbose ;;
  raise (NotImplementedError "Still need to work on this!"%string).

End Reachability.

(** The error of the unfinished driver. *)
Definition not_implemented : exn :=
  NotImplementedError "Still need to work on this!"%string.

(** ** The values computed by the point branch *)

Section PointValues.
Context {SC : Scalar}.
Variables (p_center K k : mat).

(** The action [u = K p_center + k] and the query row [z_bar.T]. *)
Definition point_action : mat := madd (mmul K p_center) k.
Definition point_query : mat := transpose (p_center ++ point_action).

(** What the point branch prints. *)
Definition point_log (verbose : Z) (p_1 q_1 : mat) : list event :=
  if (0 <? verbose)%Z
  then [Print (newline ++ "Applying action:")%string; PrintArray point_action;
        PrintEllipsoid p_1 q_1 "uncertainty first state"%string]
  else [].

End PointValues.

(** ** The values computed by the set branch *)

Section SetValues.
Context {SC : Scalar} {U : EllipsoidUtils}.

Variables (p_center K k : mat) (gp : GP) (q_shape : mat).
Variables (L_mu L_sigm : vec) (c_safety : num) (verbose : Z).

(** The linearization point [z_bar.T] and what the model returns there. *)
Definition set_query : mat := transpose (p_center ++ k).
Definition set_mu_0 : vec := fst (predict gp set_query).
Definition set_sigm_0 : vec := snd (predict gp set_query).
Definition set_Jac_mu : mat := predictive_gradients gp set_query.

(** The blocks of the Jacobian, taken at the column [n_s] read off [K]. *)
Definition set_A_mu : mat := map (firstn (ncols K)) set_Jac_mu.
Definition set_B_mu : mat := map (skipn (ncols K)) set_Jac_mu.

(** The affine terms. *)
Definition set_H : mat := madd set_A_mu (mmul set_B_mu K).
Definition set_p_0 : mat := madd (as_column set_mu_0) (mmul set_B_mu (msub k k)).
Definition set_Q_0 : mat := mmul set_H (mmul q_shape (transpose set_H)).

(** The remainder ellipsoids. *)
Definition set_box_mean : vec * vec :=
  compute_bounding_box_lagrangian p_center q_shape L_mu K k 2 verbose.
Definition set_box_sigm : vec * vec :=
  compute_bounding_box_lagrangian p_center q_shape L_sigm K k 1 verbose.
Definition set_Q_lagrange_sigm : mat :=
  diag_matrix (map (fun x => fmul c_safety (fmul x x))
                   (zip_with fadd (snd set_box_sigm) (map fsqrt set_sigm_0))).
Definition set_Q_lagrange_mu : mat :=
  ellipsoid_from_box (fst set_box_mean) (snd set_box_mean) true.

(** The three sums. *)
Definition set_sum_lagrange : mat * mat :=
  sum_ellipsoids (zeros (ncols K) 1) set_Q_lagrange_sigm
                 (zeros (ncols K) 1) set_Q_lagrange_mu.
Definition set_sum_step : mat * mat :=
  sum_ellipsoids (fst set_sum_lagrange) (snd set_sum_lagrange) set_p_0 set_Q_0.
Definition set_sum_total : mat * mat :=
  sum_ellipsoids (fst set_sum_step) (snd set_sum_step) p_center q_shape.

(** What the set branch prints. *)
Definition set_log : list event :=
  (if (0 <? verbose)%Z
   then [PrintEllipsoid p_center q_shape "initial uncertainty ellipsoid"%string;
         Print (newline ++ "Applying action:")%string; PrintArray k;
         PrintEllipsoid (as_row set_mu_0) (diag_matrix set_sigm_0)
                        "predictive distribution"%string;
         PrintEllipsoid set_p_0 set_Q_0 "linear transformation uncertainty"%string;
         PrintEllipsoid (zeros (ncols K) 1) set_Q_lagrange_sigm
                        "overapproximation lagrangian sigma"%string;
         PrintEllipsoid (zeros (ncols K) 1) set_Q_lagrange_mu
                        "overapproximation lagrangian mu"%string]
   else [])
  ++ [PrintEllipsoid (fst set_sum_step) (snd set_sum_step)
                     "accumulated uncertainty current step"%string;
      PrintEllipsoid (fst set_sum_total) (snd set_sum_total)
                     "sum old and new uncertainty"%string].

End SetValues.

Section WellShaped.
Context {SC : Scalar} {U : EllipsoidUtils}.

(** The arguments of a call on an ellipsoid have the documented shapes: the
    state has [n_s] and the action [n_u] entries, the model answers the query
    row [[p_center; k].T] with [n_s] means and variances and an
    [n_s x (n_s + n_u)] Jacobian, and the first-order remainder box has [n_s]
    entries.  Nothing is asked of [verbose]. *)
Definition set_documented_shapes (n_s n_u : nat) (p_center : mat) (gp : GP)
    (K k : mat) (L_sigm : vec) (q_shape : mat) (verbose : Z) : Prop :=
  0 < n_s /\ 0 < n_u /\
  shape n_s 1 p_center /\ shape n_s n_s q_shape /\
  shape n_u n_s K /\ shape n_u 1 k /\
  length (fst (predict gp (transpose (p_center ++ k)))) = n_s /\
  length (snd (predict gp (transpose (p_center ++ k)))) = n_s /\
  shape n_s (n_s + n_u) (predictive_gradients gp (transpose (p_center ++ k))) /\
  length (snd (compute_bounding_box_lagrangian p_center q_shape L_sigm K k 1 verbose))
  = n_s.

(** The documented shapes, and in addition a call on which the diagnostic
    [diag] of the squeezed variance, evaluated when [verbose > 0], does not
    meet a single variance: with [verbose > 0] the state has more than one
    entry. *)
Definition set_well_shaped (n_s n_u : nat) (p_center : mat) (gp : GP) (K k : mat)
    (L_sigm : vec) (q_shape : mat) (verbose : Z) : Prop :=
  0 < n_s /\ 0 < n_u /\
  shape n_s 1 p_center /\ shape n_s n_s q_shape /\
  shape n_u n_s K /\ shape n_u 1 k /\
  length (fst (predict gp (transpose (p_center ++ k)))) = n_s /\
  length (snd (predict gp (transpose (p_center ++ k)))) = n_s /\
  shape n_s (n_s + n_u) (predictive_gradients gp (transpose (p_center ++ k))) /\
  length (snd (compute_bounding_box_lagrangian p_center q_shape L_sigm K k 1 verbose))
  = n_s /\
  ((0 < verbose)%Z -> n_s <> 1).

End WellShaped.

(** ** Entrywise order *)

Section Order.
Context {SC : Scalar} {OA : OrderedArith SC}.

Definition mat_le (a b : mat) : Prop := forall i j, fle (entry i j a) (entry i j b).

End Order.

(** ** An instance over the integers

    Exact integer arithmetic instantiates [Scalar], so that the embedding can
    be run.  [toy_utils] and [const_gp] are stand-ins for the imported helpers
    and for a trained model: they are used to run the embedding on concrete
    arguments, not to describe the real helpers. *)

Module IntegerInstance.

#[export] Instance ZScalar : Scalar := {|
  num := Z;
  fzero := 0%Z;
  fadd := Z.add;
  fsub := Z.sub;
  fmul := Z.mul;
  fsqrt := Z.sqrt
|}.

(** The sum of the centers and the entrywise sum of the shapes; the box
    [-L, L]; the diagonal matrix of the squared upper bounds. *)
#[export] Instance toy_utils : EllipsoidUtils := {|
  sum_ellipsoids := fun p1 Q1 p2 Q2 => (madd p1 p2, madd Q1 Q2);
  ellipsoid_from_box := fun lb ub _ => diag_matrix (map (fun x => Z.mul x x) ub);
  compute_bounding_box_lagrangian :=
    fun _ _ L _ _ _ _ => (map Z.opp L, L)
|}.

(** A model that answers every query with the same mean, variance and
    Jacobian. *)
Definition const_gp (mean variance : list Z) (jac : list (list Z)) : GP := {|
  predict := fun _ => (mean, variance);
  predictive_gradients := fun _ => jac
|}.

End IntegerInstance.

(** Arguments of concrete calls. *)
Module Inputs.
Import IntegerInstance.
Local Open Scope Z_scope.

(** Two states and one action. *)
Definition p2 : mat := [[1]; [1]].
Definition K2 : mat := [[1; 2]].
Definition k2 : mat := [[3]].
Definition q2 : mat := [[4; 0]; [0; 4]].
Definition gp2 : GP := const_gp [1; 2] [4; 9] [[1; 0; 1]; [0; 1; 2]].
Definition L2_mu : vec := [1; 1].
Definition L2_sigm : vec := [1; 2].

(** One state and one action. *)
Definition p1 : mat := [[0]].
Definition K1 : mat := [[0]].
Definition k1 : mat := [[0]].
Definition q1 : mat := [[4]].
Definition gp1 : GP := const_gp [1] [4] [[1; 0]].
Definition L1 : vec := [0].

End Inputs.

(** Further arguments of concrete calls: a model that answers one query row
    as [gp2] does and every other row differently; gain matrices with three
    rows, with one row and three columns; a shape matrix of the wrong size. *)
Module MoreInputs.
Import IntegerInstance Inputs.
Local Open Scope Z_scope.

Definition row_gp : GP := {|
  predict := fun z =>
    match z with
    | [[1; 1; 3]] => ([1; 2], [4; 9])
    | _ => ([0; 0], [1; 1])
    end;
  predictive_gradients := fun z =>
    match z with
    | [[1; 1; 3]] => [[1; 0; 1]; [0; 1; 2]]
    | _ => [[0; 0; 0]; [0; 0; 0]]
    end
|}.

Definition K3 : mat := [[1; 2]; [0; 1]; [1; 0]].
Definition k3 : mat := [[3]; [3]; [3]].
Definition K_wide : mat := [[1; 2; 3]].

(** Helpers that differ from [toy_utils]; a model with the [predict] of [gp2]
    and another Jacobian. *)
Definition other_utils : EllipsoidUtils := {|
  sum_ellipsoids := fun p1 Q1 p2 Q2 => (p1, Q1);
  ellipsoid_from_box := fun lb ub _ => [];
  compute_bounding_box_lagrangian := fun _ _ L _ _ _ _ => (L, L)
|}.
Definition gp2_flat : GP := const_gp [1; 2] [4; 9] [].

End MoreInputs.

(** ** An instance over the real numbers *)

Module RealInstance.

#[export] Instance RScalar : Scalar := {|
  num := Rdefinitions.R;
  fzero := Rdefinitions.IZR 0;
  fadd := Rdefinitions.Rplus;
  fsub := Rdefinitions.Rminus;
  fmul := Rdefinitions.Rmult;
  fsqrt := R_sqrt.sqrt
|}.

End RealInstance.

(** * Part II: lemmas and theorems *)

(** ** Shape lemmas for the array operations *)

Section ArrayFacts.
Context {SC : Scalar}.

Lemma zip_with_length {A B C} (f : A -> B -> C) l1 l2 :
  length l1 = length l2 -> length (zip_with f l1 l2) = length l1.
Proof.
  revert l2; induction l1 as [|a l1 IH]; intros [|b l2]; simpl; try congruence.
  intros E; injection E as E. now rewrite IH.
Qed.

Lemma stretch_id {A} n (l : list A) : length l = n -> stretch n l = l.
Proof.
  destruct l as [|x [|y l]]; simpl; intros <-; reflexivity.
Qed.

Lemma bdim_same n : bdim n n = Some n.
Proof. unfold bdim. now rewrite Nat.eqb_refl. Qed.

Lemma shape_nrows r c (m : mat) : shape r c m -> nrows m = r.
Proof. now intros [H _]. Qed.

Lemma shape_ncols r c (m : mat) : shape r c m -> 0 < r -> ncols m = c.
Proof.
  intros [Hl Hf] Hr. destruct m as [|row m]; simpl in *; [lia|].
  now inversion Hf.
Qed.

Lemma shape_app r1 r2 c (a b : mat) :
  shape r1 c a -> shape r2 c b -> shape (r1 + r2) c (a ++ b).
Proof.
  intros [La Fa] [Lb Fb]. split.
  - rewrite length_app. lia.
  - apply Forall_app. now split.
Qed.

Lemma shape_mmul r c (a b : mat) : shape r c a -> shape r (ncols b) (mmul a b).
Proof.
  intros [La _]. split.
  - unfold mmul. now rewrite length_map.
  - unfold mmul. apply Forall_map, Forall_forall. intros row _.
    now rewrite length_map, length_seq.
Qed.

Lemma shape_transpose (m : mat) : shape (ncols m) (nrows m) (transpose m).
Proof.
  split.
  - unfold transpose. now rewrite length_map, length_seq.
  - unfold transpose. apply Forall_map, Forall_forall. intros j _.
    unfold column. now rewrite length_map.
Qed.

Lemma shape_firstn r c n (m : mat) :
  shape r c m -> n <= c -> shape r n (map (firstn n) m).
Proof.
  intros [L F] Hn. split; [now rewrite length_map|].
  apply Forall_map. eapply Forall_impl; [|exact F].
  intros row Hrow. cbv beta in *. rewrite length_firstn. lia.
Qed.

Lemma shape_skipn r c n (m : mat) :
  shape r c m -> shape r (c - n) (map (skipn n) m).
Proof.
  intros [L F]. split; [now rewrite length_map|].
  apply Forall_map. eapply Forall_impl; [|exact F].
  intros row Hrow. cbv beta in *. rewrite length_skipn. lia.
Qed.

Lemma shape_zip_with (f : num -> num -> num) r c (a b : mat) :
  shape r c a -> shape r c b -> shape r c (zip_with (zip_with f) a b).
Proof.
  intros [La Fa] [Lb Fb]. split.
  - rewrite zip_with_length; congruence.
  - clear La Lb. revert b Fb. induction Fa as [|ra a Hra Fa IH]; intros b Fb.
    + constructor.
    + destruct b as [|rb b]; [constructor|].
      inversion Fb; subst. simpl. constructor; [|now apply IH].
      rewrite zip_with_length; congruence.
Qed.

Lemma shape_as_column (v : vec) : shape (length v) 1 (as_column v).
Proof.
  split; [apply length_map|].
  apply Forall_map, Forall_forall. now intros.
Qed.

Lemma shape_zeros r c : shape r c (zeros r c).
Proof.
  split; [apply repeat_length|].
  apply Forall_forall. intros row Hin.
  apply repeat_spec in Hin. subst. apply repeat_length.
Qed.

Lemma zip_with_stretch_rows (f : num -> num -> num) n (a b : mat) :
  Forall (fun row => length row = n) a ->
  Forall (fun row => length row = n) b ->
  zip_with (fun ra rb => zip_with f (stretch n ra) (stretch n rb)) a b
  = zip_with (zip_with f) a b.
Proof.
  intros Fa. revert b. induction Fa as [|ra a Hra Fa IH]; intros b Fb; [reflexivity|].
  destruct b as [|rb b]; [reflexivity|].
  inversion Fb; subst. simpl.
  rewrite !stretch_id by congruence. f_equal. now apply IH.
Qed.

(** On arrays of the same shape no broadcasting takes place. *)
Lemma broadcast2_same_shape f r c (a b : mat) :
  shape r c a -> shape r c b ->
  broadcast2 f a b = inr (zip_with (zip_with f) a b).
Proof.
  intros Ha Hb. unfold broadcast2.
  rewrite (shape_nrows _ _ _ Ha), (shape_nrows _ _ _ Hb), bdim_same.
  destruct (Nat.eq_dec r 0) as [-> | Hr].
  - destruct Ha as [La _], Hb as [Lb _].
    apply length_zero_iff_nil in La, Lb. subst. reflexivity.
  - rewrite (shape_ncols _ _ _ Ha), (shape_ncols _ _ _ Hb), bdim_same by lia. f_equal.
    rewrite !stretch_id by (apply shape_nrows with (c := c); assumption).
    apply zip_with_stretch_rows; [apply Ha | apply Hb].
Qed.

Lemma np_dot_shape r k (a b : mat) :
  shape r k a -> nrows b = k -> 0 < r -> np_dot a b = inr (mmul a b).
Proof.
  intros Ha Hb Hr. unfold np_dot.
  rewrite (shape_ncols _ _ _ Ha Hr), Hb, Nat.eqb_refl. reflexivity.
Qed.

Lemma np_vstack_shape r1 r2 c (a b : mat) :
  shape r1 c a -> shape r2 c b -> 0 < r1 -> 0 < r2 ->
  np_vstack a b = inr (a ++ b).
Proof.
  intros Ha Hb H1 H2. unfold np_vstack.
  rewrite (shape_ncols _ _ _ Ha H1), (shape_ncols _ _ _ Hb H2), Nat.eqb_refl. reflexivity.
Qed.

Lemma map_nth_seq_id {A} (d : A) (l : list A) :
  map (fun j => nth j l d) (seq 0 (length l)) = l.
Proof.
  apply nth_ext with (d := d) (d' := d).
  - now rewrite length_map, length_seq.
  - intros n Hn. rewrite length_map, length_seq in Hn.
    rewrite (nth_indep _ d (nth 0 l d)) by (now rewrite length_map, length_seq).
    rewrite (map_nth (fun j => nth j l d)), seq_nth by assumption. reflexivity.
Qed.

Lemma transpose_as_row (v : vec) : transpose (as_row v) = as_column v.
Proof.
  unfold transpose, as_row, as_column, ncols, column. simpl.
  rewrite <- (map_nth_seq_id fzero v) at 2.
  rewrite map_map. reflexivity.
Qed.

End ArrayFacts.

(** ** Equations of the monad *)

Section MonadFacts.
Context {SC : Scalar}.

Lemma bind_lift_inr {A B} (a : A) (f : A -> M B) : bind (lift (inr a)) f = f a.
Proof. unfold bind, lift. now destruct (f a). Qed.

Lemma bind_lift_inl {A B} (e : exn) (f : A -> M B) :
  bind (lift (inl e)) f = ([], inl e).
Proof. reflexivity. Qed.

Lemma bind_ret {A B} (a : A) (f : A -> M B) : bind (ret a) f = f a.
Proof. unfold bind, ret. now destruct (f a). Qed.

Lemma bind_emit {B} (e : event) (f : unit -> M B) :
  bind (emit e) f = (e :: fst (f tt), snd (f tt)).
Proof. unfold bind, emit. now destruct (f tt). Qed.

Lemma bind_assoc {A B C} (m : M A) (f : A -> M B) (g : B -> M C) :
  bind (bind m f) g = bind m (fun a => bind (f a) g).
Proof.
  destruct m as [t [e|a]]; simpl; [reflexivity|].
  destruct (f a) as [t1 [e|b]]; simpl; [reflexivity|].
  destruct (g b) as [t2 r]. now rewrite app_assoc.
Qed.

Lemma snd_bind {A B} (m : M A) (f : A -> M B) :
  snd (bind m f) = match snd m with inl e => inl e | inr a => snd (f a) end.
Proof.
  destruct m as [t [e|a]]; simpl; [reflexivity|]. now destruct (f a).
Qed.

(** A guarded diagnostic that cannot fail does not change the outcome. *)
Lemma snd_when_print (b : bool) (m : M unit) :
  snd m = inr tt -> snd (when b m) = inr tt.
Proof. intros Hm. destruct b; [exact Hm | reflexivity]. Qed.

Lemma when_false (m : M unit) : when false m = ret tt.
Proof. reflexivity. Qed.

Lemma when_true (m : M unit) : when true m = m.
Proof. reflexivity. Qed.

End MonadFacts.

(** ** The point branch *)

Section PointCase.
Context {SC : Scalar} {U : EllipsoidUtils}.

Variables (n_s n_u : nat) (p_center K k : mat) (gp : GP).
Hypothesis n_s_pos : 0 < n_s.
Hypothesis n_u_pos : 0 < n_u.
Hypothesis p_shape : shape n_s 1 p_center.
Hypothesis K_shape : shape n_u n_s K.
Hypothesis k_shape : shape n_u 1 k.

Local Notation point_action := (point_action p_center K k).
Local Notation point_query := (point_query p_center K k).
Local Notation point_log := (point_log p_center K k).

Lemma point_action_shape : shape n_u 1 point_action.
Proof.
  unfold point_action, madd. apply shape_zip_with; [|exact k_shape].
  rewrite <- (shape_ncols _ _ _ p_shape n_s_pos). eapply shape_mmul; exact K_shape.
Qed.

Lemma point_action_run : 
  bind (lift (np_dot K p_center)) (fun Kp => lift (np_add Kp k))
  = ([], inr point_action).
Proof.
  rewrite (np_dot_shape _ _ _ _ K_shape (shape_nrows _ _ _ p_shape) n_u_pos). simpl.
  unfold np_add. erewrite broadcast2_same_shape; [reflexivity| |exact k_shape].
  rewrite <- (shape_ncols _ _ _ p_shape n_s_pos). eapply shape_mmul; exact K_shape.
Qed.

Lemma point_vstack_run :
  np_vstack p_center point_action = inr (p_center ++ point_action).
Proof.
  exact (np_vstack_shape _ _ _ _ _ p_shape point_action_shape n_s_pos n_u_pos).
Qed.


(** Up to the construction of the shape matrix the point branch runs without
    error on well-shaped arguments; it then succeeds or fails with [np.diag]. *)
Lemma onestep_point_run L_mu L_sigm c_safety verbose :
  length (fst (predict gp point_query)) = n_s ->
  onestep_reachability p_center gp K k L_mu L_sigm None c_safety verbose
  = match np_diag (scale_r (squeeze (snd (predict gp point_query))) c_safety) with
    | inl e =>
        (if (0 <? verbose)%Z
         then [Print (newline ++ "Applying action:")%string; PrintArray point_action]
         else [], inl e)
    | inr q_1 =>
        let p_1 := madd p_center (as_column (fst (predict gp point_query))) in
        (point_log verbose p_1 q_1, inr (p_1, q_1))
    end.
Proof.
  intros Hmean. unfold onestep_reachability, point_log, np_shape.
  rewrite (np_dot_shape _ _ _ _ K_shape (shape_nrows _ _ _ p_shape) n_u_pos).
  assert (Hadd : np_add (mmul K p_center) k = inr point_action).
  { unfold np_add. erewrite broadcast2_same_shape; [reflexivity| |exact k_shape].
    rewrite <- (shape_ncols _ _ _ p_shape n_s_pos). eapply shape_mmul; exact K_shape. }
  destruct (0 <? verbose)%Z;
    rewrite ?when_true, ?when_false, ?bind_ret, ?bind_lift_inr, Hadd,
      ?bind_assoc, ?bind_lift_inr;
    unfold print, print_array, print_ellipsoid;
    rewrite ?bind_emit, ?bind_ret, ?bind_lift_inr, point_vstack_run, ?bind_lift_inr;
    fold point_query;
    destruct (predict gp point_query) as [p_new q_new] eqn:Hp; simpl in Hmean |- *;
    rewrite transpose_as_row; unfold np_add;
    rewrite (broadcast2_same_shape fadd n_s 1 p_center (as_column p_new) p_shape)
      by (rewrite <- Hmean; apply shape_as_column);
    fold (madd p_center (as_column p_new));
    destruct (np_diag (scale_r (squeeze q_new) c_safety)) as [e|q_1]; reflexivity.
Qed.

End PointCase.

(** ** The set branch *)

Section SetCase.
Context {SC : Scalar} {U : EllipsoidUtils}.

Variables (n_s n_u : nat) (p_center K k : mat) (gp : GP) (q_shape : mat).
Variables (L_mu L_sigm : vec) (c_safety : num) (verbose : Z).

Local Notation set_query := (set_query p_center k).
Local Notation set_mu_0 := (set_mu_0 p_center k gp).
Local Notation set_sigm_0 := (set_sigm_0 p_center k gp).
Local Notation set_Jac_mu := (set_Jac_mu p_center k gp).
Local Notation set_A_mu := (set_A_mu p_center K k gp).
Local Notation set_B_mu := (set_B_mu p_center K k gp).
Local Notation set_H := (set_H p_center K k gp).
Local Notation set_p_0 := (set_p_0 p_center K k gp).
Local Notation set_Q_0 := (set_Q_0 p_center K k gp q_shape).
Local Notation set_box_mean := (set_box_mean p_center K k q_shape L_mu verbose).
Local Notation set_box_sigm := (set_box_sigm p_center K k q_shape L_sigm verbose).
Local Notation set_Q_lagrange_sigm :=
  (set_Q_lagrange_sigm p_center K k gp q_shape L_sigm c_safety verbose).
Local Notation set_Q_lagrange_mu :=
  (set_Q_lagrange_mu p_center K k q_shape L_mu verbose).
Local Notation set_sum_lagrange :=
  (set_sum_lagrange p_center K k gp q_shape L_mu L_sigm c_safety verbose).
Local Notation set_sum_step :=
  (set_sum_step p_center K k gp q_shape L_mu L_sigm c_safety verbose).
Local Notation set_sum_total :=
  (set_sum_total p_center K k gp q_shape L_mu L_sigm c_safety verbose).
Local Notation set_log :=
  (set_log p_center K k gp q_shape L_mu L_sigm c_safety verbose).

Hypothesis n_s_pos : 0 < n_s.
Hypothesis n_u_pos : 0 < n_u.
Hypothesis p_shape : shape n_s 1 p_center.
Hypothesis q_shape_shape : shape n_s n_s q_shape.
Hypothesis K_shape : shape n_u n_s K.
Hypothesis k_shape : shape n_u 1 k.
Hypothesis mu_shape : length set_mu_0 = n_s.
Hypothesis sigm_shape : length set_sigm_0 = n_s.
Hypothesis Jac_shape : shape n_s (n_s + n_u) set_Jac_mu.
Hypothesis ub_shape : length (snd set_box_sigm) = n_s.

Lemma set_ncols_K : ncols K = n_s.
Proof. exact (shape_ncols _ _ _ K_shape n_u_pos). Qed.

Lemma set_A_shape : shape n_s n_s set_A_mu.
Proof.
  unfold set_A_mu. rewrite set_ncols_K.
  apply shape_firstn with (c := n_s + n_u); [exact Jac_shape | lia].
Qed.

Lemma set_B_shape : shape n_s n_u set_B_mu.
Proof.
  unfold set_B_mu. rewrite set_ncols_K.
  replace n_u with (n_s + n_u - n_s) at 1 by lia.
  apply shape_skipn, Jac_shape.
Qed.

Lemma set_BK_shape : shape n_s n_s (mmul set_B_mu K).
Proof.
  rewrite <- set_ncols_K at 2. eapply shape_mmul; exact set_B_shape.
Qed.

Lemma set_H_shape : shape n_s n_s set_H.
Proof. apply shape_zip_with; [exact set_A_shape | exact set_BK_shape]. Qed.

Lemma set_vstack_run : np_vstack p_center k = inr (p_center ++ k).
Proof. exact (np_vstack_shape _ _ _ _ _ p_shape k_shape n_s_pos n_u_pos). Qed.

Lemma set_BK_run : np_dot set_B_mu K = inr (mmul set_B_mu K).
Proof.
  exact (np_dot_shape _ _ _ _ set_B_shape (shape_nrows _ _ _ K_shape) n_s_pos).
Qed.

Lemma set_H_run : np_add set_A_mu (mmul set_B_mu K) = inr set_H.
Proof.
  exact (broadcast2_same_shape fadd _ _ _ _ set_A_shape set_BK_shape).
Qed.

Lemma set_du_run : np_sub k k = inr (msub k k).
Proof. exact (broadcast2_same_shape fsub _ _ _ _ k_shape k_shape). Qed.

Lemma set_du_shape : shape n_u 1 (msub k k).
Proof. apply shape_zip_with; exact k_shape. Qed.

Lemma set_Bdu_run : np_dot set_B_mu (msub k k) = inr (mmul set_B_mu (msub k k)).
Proof.
  exact (np_dot_shape _ _ _ _ set_B_shape (shape_nrows _ _ _ set_du_shape) n_s_pos).
Qed.

Lemma set_p_0_run :
  np_add (transpose (as_row set_mu_0)) (mmul set_B_mu (msub k k)) = inr set_p_0.
Proof.
  rewrite transpose_as_row. unfold np_add.
  rewrite (broadcast2_same_shape fadd n_s 1); [reflexivity| |].
  - rewrite <- mu_shape. apply shape_as_column.
  - rewrite <- (shape_ncols _ _ _ set_du_shape n_u_pos).
    eapply shape_mmul; exact set_B_shape.
Qed.

Lemma set_Ht_shape : shape n_s n_s (transpose set_H).
Proof.
  pose proof (shape_transpose set_H) as Ht.
  now rewrite (shape_ncols _ _ _ set_H_shape n_s_pos),
    (shape_nrows _ _ _ set_H_shape) in Ht.
Qed.

Lemma set_qHt_run :
  np_dot q_shape (transpose set_H) = inr (mmul q_shape (transpose set_H)).
Proof.
  exact (np_dot_shape _ _ _ _ q_shape_shape (shape_nrows _ _ _ set_Ht_shape) n_s_pos).
Qed.

Lemma set_Q_0_run : np_dot set_H (mmul q_shape (transpose set_H)) = inr set_Q_0.
Proof.
  assert (Hq : shape n_s (ncols (transpose set_H)) (mmul q_shape (transpose set_H)))
    by (eapply shape_mmul; exact q_shape_shape).
  exact (np_dot_shape _ _ _ _ set_H_shape (shape_nrows _ _ _ Hq) n_s_pos).
Qed.

Lemma set_sigma_run :
  broadcast1 fadd (snd set_box_sigm) (map fsqrt set_sigm_0)
  = inr (zip_with fadd (snd set_box_sigm) (map fsqrt set_sigm_0)).
Proof.
  unfold broadcast1. rewrite length_map, ub_shape, sigm_shape, bdim_same.
  rewrite !stretch_id; [reflexivity | now rewrite length_map | exact ub_shape].
Qed.

Lemma squeeze_vector (v : vec) : length v <> 1 -> squeeze v = Arr1 v.
Proof. destruct v as [|x [|y v]]; simpl; intros H; congruence. Qed.

(** On well-shaped arguments the set branch runs without error, prints
    [set_log] and returns the last of the three sums.  With [verbose > 0]
    the branch applies [diag] to the squeezed variance, which needs a state
    dimension other than 1. *)
Lemma onestep_set_run :
  ((0 < verbose)%Z -> n_s <> 1) ->
  onestep_reachability p_center gp K k L_mu L_sigm (Some q_shape) c_safety verbose
  = (set_log, inr (fst set_sum_total, snd set_sum_total)).
Proof.
  intros Hv. unfold onestep_reachability, np_shape.
  cbv beta iota zeta.
  rewrite set_vstack_run.
  assert (Hpred : predict gp set_query = (set_mu_0, set_sigm_0))
    by exact (surjective_pairing (predict gp set_query)).
  assert (Hmean : compute_bounding_box_lagrangian p_center q_shape L_mu K k 2 verbose
                  = (fst set_box_mean, snd set_box_mean))
    by exact (surjective_pairing set_box_mean).
  assert (Hsigm : compute_bounding_box_lagrangian p_center q_shape L_sigm K k 1 verbose
                  = (fst set_box_sigm, snd set_box_sigm))
    by exact (surjective_pairing set_box_sigm).
  assert (Hsq : (0 <? verbose)%Z = true -> squeeze set_sigm_0 = Arr1 set_sigm_0).
  { intros Hb. apply squeeze_vector. rewrite sigm_shape. apply Hv. lia. }
  unfold set_log.
  destruct (0 <? verbose)%Z;
    rewrite ?when_true, ?when_false; unfold print, print_array, print_ellipsoid;
    rewrite ?bind_emit, ?bind_ret, ?bind_lift_inr, ?bind_assoc;
    fold set_query; rewrite Hpred; cbv beta iota zeta;
    rewrite ?Hsq by reflexivity; cbn [np_diag];
    fold set_Jac_mu; fold set_A_mu; fold set_B_mu;
    rewrite ?bind_emit, ?bind_ret, ?bind_lift_inr, ?bind_assoc;
    rewrite set_BK_run, bind_lift_inr, set_H_run, bind_lift_inr,
      set_du_run, bind_lift_inr, set_Bdu_run, bind_lift_inr,
      set_p_0_run, bind_lift_inr, set_qHt_run, bind_lift_inr,
      set_Q_0_run, bind_lift_inr;
    rewrite Hmean, Hsigm; cbv beta iota zeta;
    rewrite set_sigma_run, bind_lift_inr;
    fold set_Q_lagrange_sigm; fold set_Q_lagrange_mu; fold set_sum_lagrange;
    rewrite (surjective_pairing set_sum_lagrange); cbv beta iota zeta;
    fold set_sum_step;
    rewrite (surjective_pairing set_sum_step); cbv beta iota zeta;
    fold set_sum_total;
    rewrite (surjective_pairing set_sum_total); cbv beta iota zeta;
    rewrite ?bind_emit, ?bind_ret; reflexivity.
Qed.

End SetCase.

(** ** The laws of the integer and of the real instance *)

Module IntegerLaws.
Import IntegerInstance.

#[export] Instance ZExact : ExactArith ZScalar.
Proof.
  split; simpl; intros; lia.
Qed.

Lemma Zmul_le_mono_nonneg_l (c1 c2 v : Z) :
  (0 <= v -> c1 <= c2 -> v * c1 <= v * c2)%Z.
Proof. nia. Qed.

Lemma Zmul_le_mono_nonneg_r (c1 c2 v : Z) :
  (0 <= v -> c1 <= c2 -> c1 * v <= c2 * v)%Z.
Proof. nia. Qed.

#[export] Instance ZOrdered : OrderedArith ZScalar := {|
  fle := Z.le;
  fle_refl := Z.le_refl;
  fle_trans := Z.le_trans;
  fmul_le_mono_l := Zmul_le_mono_nonneg_l;
  fmul_le_mono_r := Zmul_le_mono_nonneg_r
|}.

#[export] Instance ZAbsorbing : AbsorbingZero ZScalar := {|
  fmul_zero_absorb := Z.mul_0_r
|}.

End IntegerLaws.

Module RealLaws.
Import Reals Lra RealInstance.

#[export] Instance RExact : ExactArith RScalar.
Proof.
  split; simpl; intros; lra.
Qed.

Lemma Rmul_le_mono_nonneg_l (c1 c2 v : R) :
  (0 <= v -> c1 <= c2 -> v * c1 <= v * c2)%R.
Proof. intros; nra. Qed.

Lemma Rmul_le_mono_nonneg_r (c1 c2 v : R) :
  (0 <= v -> c1 <= c2 -> c1 * v <= c2 * v)%R.
Proof. intros; nra. Qed.

#[export] Instance ROrdered : OrderedArith RScalar := {|
  fle := Rle;
  fle_refl := Rle_refl;
  fle_trans := Rle_trans;
  fmul_le_mono_l := Rmul_le_mono_nonneg_l;
  fmul_le_mono_r := Rmul_le_mono_nonneg_r
|}.

#[export] Instance RAbsorbing : AbsorbingZero RScalar := {|
  fmul_zero_absorb := Rmult_0_r
|}.

End RealLaws.

(** * Properties of the point branch *)

Section PointCaseProperties.
Context {SC : Scalar} {U : EllipsoidUtils}.

(** X1. On well-shaped arguments whose predicted variance has more than one entry
    (or none), the point branch returns [p_center + mean.T] and
    [diag(variance * c_safety)], mean and variance being the model's answer
    at the row [[p_center; K p_center + k].T]. *)
Lemma onestep_point_case n_s n_u p_center gp K k L_mu L_sigm c_safety verbose :
  0 < n_s -> 0 < n_u ->
  shape n_s 1 p_center -> shape n_u n_s K -> shape n_u 1 k ->
  let u := madd (mmul K p_center) k in
  let z := transpose (p_center ++ u) in
  length (fst (predict gp z)) = n_s ->
  length (snd (predict gp z)) <> 1 ->
  snd (onestep_reachability p_center gp K k L_mu L_sigm None c_safety verbose)
  = inr (madd p_center (as_column (fst (predict gp z))),
         diag_matrix (map (fun s => fmul s c_safety) (snd (predict gp z)))).
Proof.
  intros Hs Hu Hp HK Hk u z Hmean Hvar.
  rewrite (onestep_point_run n_s n_u p_center K k gp Hs Hu Hp HK Hk) by exact Hmean.
  fold u z in Hvar |- *. unfold point_query, point_action. fold u z.
  rewrite (squeeze_vector _ Hvar). reflexivity.
Qed.

(** X2. With a single state dimension the variance is squeezed to a 0-d array, and
    [np.diag] refuses it: the point branch raises instead of returning. *)
Lemma onestep_point_one_dim_raises n_u p_center gp K k L_mu L_sigm c_safety verbose :
  0 < n_u ->
  shape 1 1 p_center -> shape n_u 1 K -> shape n_u 1 k ->
  let u := madd (mmul K p_center) k in
  let z := transpose (p_center ++ u) in
  length (fst (predict gp z)) = 1 ->
  length (snd (predict gp z)) = 1 ->
  snd (onestep_reachability p_center gp K k L_mu L_sigm None c_safety verbose)
  = inl (ValueError Diag).
Proof.
  intros Hu Hp HK Hk u z Hmean Hvar.
  rewrite (onestep_point_run 1 n_u p_center K k gp Nat.lt_0_1 Hu Hp HK Hk)
    by exact Hmean.
  fold u z in Hvar |- *. unfold point_query, point_action. fold u z.
  destruct (snd (predict gp z)) as [|x [|y v]]; try discriminate.
  reflexivity.
Qed.

(** C10. In the point branch ([q_shape] is [None]) the log and the result do
    not depend on the Lipschitz constants: two calls that differ only in
    [L_mu] and [L_sigm] are equal. *)
Theorem onestep_point_lipschitz_independent
    p_center gp K k (L_mu L_sigm L_mu' L_sigm' : vec) c_safety verbose :
  onestep_reachability p_center gp K k L_mu L_sigm None c_safety verbose
  = onestep_reachability p_center gp K k L_mu' L_sigm' None c_safety verbose.
Proof. reflexivity. Qed.

End PointCaseProperties.

(** * Properties of the multi-step driver *)

Section MultistepProperties.
Context {SC : Scalar} {U : EllipsoidUtils}.

(** The driver never reads [q_0]. *)
Lemma multistep_ignores_q_0 p_0 gp K k L_mu L_sigm (q_0 q_0' : option mat)
    c_safety verbose :
  multistep_reachability p_0 gp K k L_mu L_sigm q_0 c_safety verbose
  = multistep_reachability p_0 gp K k L_mu L_sigm q_0' c_safety verbose.
Proof. reflexivity. Qed.

(** C2, as amended.  For every horizon of at least one step, the horizon of
    exactly one step included, the driver runs the first step on [K[0]] and
    [k[0]] from a point and then raises [NotImplementedError] if that step
    returned (an error of the first step is passed on); whatever the
    arguments, the driver never returns a value. *)
Theorem multistep_first_step_then_not_implemented
    p_0 gp (K_0 : mat) (K_rest : list mat) (k_0 : vec) (k_rest : mat)
    L_mu L_sigm q_0 c_safety verbose :
  multistep_reachability p_0 gp (K_0 :: K_rest) (k_0 :: k_rest)
                         L_mu L_sigm q_0 c_safety verbose
  = (fst (onestep_reachability p_0 gp K_0 (as_column k_0) L_mu L_sigm None
                               c_safety verbose),
     match snd (onestep_reachability p_0 gp K_0 (as_column k_0) L_mu L_sigm None
                                     c_safety verbose) with
     | inr _ => inl not_implemented
     | inl e => inl e
     end)
  /\ forall K k r,
      snd (multistep_reachability p_0 gp K k L_mu L_sigm q_0 c_safety verbose)
      <> inr r.
Proof.
  split.
  - unfold multistep_reachability. rewrite !bind_lift_inr.
    destruct onestep_reachability as [t [e|r]]; simpl; [reflexivity|].
    now rewrite app_nil_r.
  - intros K k r. unfold multistep_reachability.
    destruct K as [|K0 K']; [discriminate|]. rewrite bind_lift_inr.
    destruct k as [|k0 k']; [discriminate|]. rewrite bind_lift_inr.
    destruct onestep_reachability as [t [e|r']]; simpl; discriminate.
Qed.

End MultistepProperties.

(** * Properties of the set branch *)

Section SetCaseRuns.
Context {SC : Scalar} {U : EllipsoidUtils}.

Variables (n_s n_u : nat) (p_center K k : mat) (gp : GP) (q_shape : mat).
Variables (L_mu L_sigm : vec) (c_safety : num) (verbose : Z).
Hypothesis Hws : set_well_shaped n_s n_u p_center gp K k L_sigm q_shape verbose.

Lemma set_case_run :
  onestep_reachability p_center gp K k L_mu L_sigm (Some q_shape) c_safety verbose
  = (set_log p_center K k gp q_shape L_mu L_sigm c_safety verbose,
     inr (set_sum_total p_center K k gp q_shape L_mu L_sigm c_safety verbose)).
Proof.
  destruct Hws as (H1 & H2 & H3 & H4 & H5 & H6 & H7 & H8 & H9 & H10 & H11).
  rewrite (onestep_set_run n_s n_u) by assumption.
  now rewrite <- surjective_pairing.
Qed.


End SetCaseRuns.

(** With [verbose > 0] and a predicted variance of a single entry the
    diagnostic of the predictive distribution raises: [squeeze] leaves a
    0-d array, which [np.diag] refuses. *)
Lemma set_single_variance_run {SC : Scalar} {U : EllipsoidUtils}
    n_s n_u p_center gp K k L_mu L_sigm q_shape c_safety verbose :
  0 < n_s -> 0 < n_u -> shape n_s 1 p_center -> shape n_u 1 k ->
  (0 < verbose)%Z ->
  length (snd (predict gp (transpose (p_center ++ k)))) = 1 ->
  onestep_reachability p_center gp K k L_mu L_sigm (Some q_shape) c_safety verbose
  = ([PrintEllipsoid p_center q_shape "initial uncertainty ellipsoid"%string;
      Print (newline ++ "Applying action:")%string; PrintArray k],
     inl (ValueError Diag)).
Proof.
  intros Hs Hu Hp Hk Hv Hvar. apply Z.ltb_lt in Hv.
  unfold onestep_reachability, np_shape. cbv beta iota zeta.
  rewrite (set_vstack_run n_s n_u p_center k Hs Hu Hp Hk), Hv, !when_true.
  unfold print, print_array, print_ellipsoid.
  rewrite ?bind_emit, ?bind_ret, ?bind_lift_inr, ?bind_assoc.
  destruct (predict gp (transpose (p_center ++ k))) as [mu_0 sigm_0].
  destruct sigm_0 as [|x [|y sigm_0]]; try discriminate.
  reflexivity.
Qed.

Section SetCaseProperties.
Context {SC : Scalar} {U : EllipsoidUtils}.

Variables (n_s n_u : nat) (p_center K k : mat) (gp : GP) (q_shape : mat).
Variables (L_mu L_sigm : vec) (c_safety : num) (verbose : Z).
Hypothesis Hds :
  set_documented_shapes n_s n_u p_center gp K k L_sigm q_shape verbose.

Local Notation run :=
  (onestep_reachability p_center gp K k L_mu L_sigm (Some q_shape) c_safety verbose).

Lemma documented_ncols_K : ncols K = n_s.
Proof.
  destruct Hds as (H1 & H2 & H3 & H4 & H5 & _).
  exact (shape_ncols _ _ _ H5 H2).
Qed.

Lemma documented_well_shaped :
  ((0 < verbose)%Z -> n_s <> 1) ->
  set_well_shaped n_s n_u p_center gp K k L_sigm q_shape verbose.
Proof.
  intros Hv. destruct Hds as (H1 & H2 & H3 & H4 & H5 & H6 & H7 & H8 & H9 & H10).
  unfold set_well_shaped. tauto.
Qed.

(** The call returns unless the diagnostic meets a single variance. *)
Lemma documented_run_returns :
  ((0 < verbose)%Z -> n_s <> 1) ->
  run = (set_log p_center K k gp q_shape L_mu L_sigm c_safety verbose,
         inr (set_sum_total p_center K k gp q_shape L_mu L_sigm c_safety verbose)).
Proof.
  intros Hv. exact (set_case_run n_s n_u _ _ _ _ _ _ _ _ _ (documented_well_shaped Hv)).
Qed.

Lemma documented_run_raises :
  (0 < verbose)%Z -> n_s = 1 ->
  run = ([PrintEllipsoid p_center q_shape "initial uncertainty ellipsoid"%string;
          Print (newline ++ "Applying action:")%string; PrintArray k],
         inl (ValueError Diag)).
Proof.
  intros Hv Hn.
  destruct Hds as (H1 & H2 & H3 & H4 & H5 & H6 & H7 & H8 & H9 & H10).
  apply (set_single_variance_run n_s n_u); try assumption.
  now rewrite H8.
Qed.

(** A value is returned only by a call on which the diagnostic is safe, and
    it is the last of the three sums. *)
Lemma documented_returned_value v :
  snd run = inr v ->
  ((0 < verbose)%Z -> n_s <> 1)
  /\ v = set_sum_total p_center K k gp q_shape L_mu L_sigm c_safety verbose.
Proof.
  intros Hr.
  assert (Hv : (0 < verbose)%Z -> n_s <> 1).
  { intros Hpos Hn. rewrite (documented_run_raises Hpos Hn) in Hr. discriminate. }
  split; [exact Hv|].
  rewrite (documented_run_returns Hv) in Hr. now injection Hr.
Qed.

(** C4. In the set branch the Jacobian at the linearization point is split
    into [A_mu] (its first [n_s] columns) and [B_mu] (its other [n_u]
    columns); with [H = A_mu + B_mu K] the shape [Q_0 = H q_shape H.T] is the
    shape of the linear-propagation ellipsoid, the second operand of the
    second sum.  This holds of every value that a call on arguments of the
    documented shapes returns, and such a call returns whenever
    [verbose <= 0] or the state has more than one entry. *)
Theorem onestep_set_linear_propagation :
  let Jac_mu := predictive_gradients gp (transpose (p_center ++ k)) in
  let A_mu := map (firstn n_s) Jac_mu in
  let B_mu := map (skipn n_s) Jac_mu in
  let H := madd A_mu (mmul B_mu K) in
  let Q_0 := mmul H (mmul q_shape (transpose H)) in
  shape n_s n_s A_mu /\ shape n_s n_u B_mu /\
  (forall v, snd run = inr v ->
     exists p_lagrange Q_lagrange p_0,
       let step := sum_ellipsoids p_lagrange Q_lagrange p_0 Q_0 in
       v = sum_ellipsoids (fst step) (snd step) p_center q_shape
       /\ ((0 < verbose)%Z ->
           In (PrintEllipsoid p_0 Q_0 "linear transformation uncertainty"%string)
              (fst run)))
  /\ (((0 < verbose)%Z -> n_s <> 1) -> exists v, snd run = inr v).
Proof.
  intros Jac_mu A_mu B_mu H Q_0.
  pose proof documented_ncols_K as HK.
  assert (EA : A_mu = set_A_mu p_center K k gp)
    by (unfold set_A_mu; now rewrite HK).
  assert (EB : B_mu = set_B_mu p_center K k gp)
    by (unfold set_B_mu; now rewrite HK).
  assert (EQ : Q_0 = set_Q_0 p_center K k gp q_shape).
  { unfold Q_0, H, set_Q_0, set_H. now rewrite EA, EB. }
  destruct Hds as (H1 & H2 & H3 & H4 & H5 & H6 & H7 & H8 & H9 & H10).
  split; [|split; [|split]].
  - rewrite EA. eapply (set_A_shape n_s n_u); eassumption.
  - rewrite EB. eapply (set_B_shape n_s n_u); eassumption.
  - intros v Hr. destruct (documented_returned_value v Hr) as [Hv ->].
    exists (fst (set_sum_lagrange p_center K k gp q_shape L_mu L_sigm c_safety verbose)),
           (snd (set_sum_lagrange p_center K k gp q_shape L_mu L_sigm c_safety verbose)),
           (set_p_0 p_center K k gp).
    rewrite EQ. split; [reflexivity|].
    intros Hpos. rewrite (documented_run_returns Hv). simpl. unfold set_log.
    apply Z.ltb_lt in Hpos. rewrite Hpos. simpl. tauto.
  - intros Hv. eexists. rewrite (documented_run_returns Hv). reflexivity.
Qed.

(** C5. The set branch returns the result of three summations: the
    zero-centred variance-remainder ellipsoid plus the zero-centred
    mean-remainder ellipsoid; that sum plus the linear-propagation ellipsoid
    [(p_0, Q_0)]; and that sum plus the input ellipsoid
    [(p_center, q_shape)].  On arguments of the documented shapes every
    returned value is this one; the call returns it whenever [verbose <= 0]
    or the state has more than one entry, and raises in [np.diag] in the
    remaining case. *)
Theorem onestep_set_three_sums :
  let sigm_0 := snd (predict gp (transpose (p_center ++ k))) in
  let box_mean := compute_bounding_box_lagrangian p_center q_shape L_mu K k 2 verbose in
  let box_sigm := compute_bounding_box_lagrangian p_center q_shape L_sigm K k 1 verbose in
  let Q_lagrange_sigm :=
    diag_matrix (map (fun x => fmul c_safety (fmul x x))
                     (zip_with fadd (snd box_sigm) (map fsqrt sigm_0))) in
  let Q_lagrange_mu := ellipsoid_from_box (fst box_mean) (snd box_mean) true in
  let p_0 := set_p_0 p_center K k gp in
  let Q_0 := set_Q_0 p_center K k gp q_shape in
  let sum_lagrange :=
    sum_ellipsoids (zeros n_s 1) Q_lagrange_sigm (zeros n_s 1) Q_lagrange_mu in
  let sum_step := sum_ellipsoids (fst sum_lagrange) (snd sum_lagrange) p_0 Q_0 in
  let sum_total := sum_ellipsoids (fst sum_step) (snd sum_step) p_center q_shape in
  (forall v, snd run = inr v -> v = sum_total)
  /\ (((0 < verbose)%Z -> n_s <> 1) -> snd run = inr sum_total)
  /\ ((0 < verbose)%Z -> n_s = 1 -> snd run = inl (ValueError Diag)).
Proof.
  cbv zeta.
  match goal with
  | |- (forall v, _ -> v = ?F) /\ _ =>
      assert (E : set_sum_total p_center K k gp q_shape L_mu L_sigm c_safety verbose
                  = F)
  end.
  { unfold set_sum_total, set_sum_step, set_sum_lagrange.
    now rewrite documented_ncols_K. }
  split; [|split].
  - intros v Hr. destruct (documented_returned_value v Hr) as [_ ->]. exact E.
  - intros Hv. rewrite (documented_run_returns Hv). cbn [snd]. now rewrite E.
  - intros Hpos Hn. now rewrite (documented_run_raises Hpos Hn).
Qed.

End SetCaseProperties.

(** ** Cancellation of the action offset under exact arithmetic *)

Section ExactFacts.
Context {SC : Scalar} {EA : ExactArith SC}.

Lemma zip_with_diag (f : num -> num -> num) (l : vec) :
  zip_with f l l = map (fun x => f x x) l.
Proof. induction l as [|x l IH]; simpl; [reflexivity | now rewrite IH]. Qed.

Lemma msub_diag r c (m : mat) : shape r c m -> msub m m = zeros r c.
Proof.
  intros [Hl Hf]. subst r. unfold msub, zeros.
  induction Hf as [|row m Hrow Hf IH]; simpl; [reflexivity|].
  rewrite IH. f_equal. rewrite zip_with_diag. subst c.
  clear Hf IH. induction row as [|x row IH]; simpl; [reflexivity|].
  now rewrite fsub_diag, IH.
Qed.

Lemma dotp_zeros_r (row : vec) n : dotp row (repeat fzero n) = fzero.
Proof.
  unfold dotp. revert n. induction row as [|x row IH]; intros [|n]; simpl;
    try reflexivity.
  rewrite IH, fmul_zero_r. apply fadd_zero_r.
Qed.

Lemma column_zeros j r c : column j (zeros r c) = repeat fzero r.
Proof.
  unfold column, zeros. induction r as [|r IH]; simpl; [reflexivity|].
  rewrite IH. f_equal.
  destruct (Nat.lt_ge_cases j c) as [Hj|Hj].
  - apply nth_repeat_lt. exact Hj.
  - apply nth_overflow. now rewrite repeat_length.
Qed.

Lemma mmul_zeros_r (b : mat) n : 0 < n -> mmul b (zeros n 1) = zeros (length b) 1.
Proof.
  intros Hn. unfold mmul.
  assert (Hc : ncols (zeros n 1) = 1) by (destruct n; [lia | reflexivity]).
  rewrite Hc. simpl.
  induction b as [|row b IH]; simpl; [reflexivity|].
  now rewrite IH, column_zeros, dotp_zeros_r.
Qed.

Lemma madd_zeros_r (v : vec) :
  madd (as_column v) (zeros (length v) 1) = as_column v.
Proof.
  unfold madd, as_column, zeros.
  induction v as [|x v IH]; simpl; [reflexivity|].
  simpl in IH. now rewrite IH, fadd_zero_r.
Qed.

End ExactFacts.

Section SetCaseExact.
Context {SC : Scalar} {EA : ExactArith SC} {U : EllipsoidUtils}.

Variables (n_s n_u : nat) (p_center K k : mat) (gp : GP) (q_shape : mat).
Variables (L_mu L_sigm : vec) (c_safety : num) (verbose : Z).
Hypothesis Hds :
  set_documented_shapes n_s n_u p_center gp K k L_sigm q_shape verbose.

Local Notation run :=
  (onestep_reachability p_center gp K k L_mu L_sigm (Some q_shape) c_safety verbose).

Lemma set_p_0_is_mean :
  set_p_0 p_center K k gp = as_column (fst (predict gp (transpose (p_center ++ k)))).
Proof.
  destruct Hds as (H1 & H2 & H3 & H4 & H5 & H6 & H7 & H8 & H9 & H10).
  unfold set_p_0. rewrite (msub_diag n_u 1 k H6), (mmul_zeros_r _ n_u H2).
  assert (HB : length (set_B_mu p_center K k gp) = n_s).
  { apply (shape_nrows _ n_u). eapply (set_B_shape n_s n_u); eassumption. }
  rewrite HB. unfold set_mu_0, set_query. rewrite <- H7.
  apply madd_zeros_r.
Qed.

(** C6. In the set branch the mean, the variance and the Jacobian are those
    of the model at the one row [[p_center; k].T], whose action part is [k];
    and since [u_bar] is [k], the centre [p_0 = mu_0.T + B_mu (k - u_bar)] of
    the linear-propagation ellipsoid is the predicted mean [mu_0.T].  On
    arguments of the documented shapes every returned value is built from
    these; the call returns it whenever [verbose <= 0] or the state has more
    than one entry, and raises in [np.diag] in the remaining case. *)
Theorem onestep_set_linearization_point :
  let z_bar := transpose (p_center ++ k) in
  let mu_0 := fst (predict gp z_bar) in
  let sigm_0 := snd (predict gp z_bar) in
  let Jac_mu := predictive_gradients gp z_bar in
  let B_mu := map (skipn n_s) Jac_mu in
  let H := madd (map (firstn n_s) Jac_mu) (mmul B_mu K) in
  let Q_0 := mmul H (mmul q_shape (transpose H)) in
  let box_mean := compute_bounding_box_lagrangian p_center q_shape L_mu K k 2 verbose in
  let box_sigm := compute_bounding_box_lagrangian p_center q_shape L_sigm K k 1 verbose in
  let Q_lagrange_sigm :=
    diag_matrix (map (fun x => fmul c_safety (fmul x x))
                     (zip_with fadd (snd box_sigm) (map fsqrt sigm_0))) in
  let Q_lagrange_mu := ellipsoid_from_box (fst box_mean) (snd box_mean) true in
  let sum_lagrange :=
    sum_ellipsoids (zeros n_s 1) Q_lagrange_sigm (zeros n_s 1) Q_lagrange_mu in
  let sum_step :=
    sum_ellipsoids (fst sum_lagrange) (snd sum_lagrange) (as_column mu_0) Q_0 in
  let sum_total := sum_ellipsoids (fst sum_step) (snd sum_step) p_center q_shape in
  madd (transpose (as_row mu_0)) (mmul B_mu (msub k k)) = as_column mu_0
  /\ (forall v, snd run = inr v -> v = sum_total)
  /\ (((0 < verbose)%Z -> n_s <> 1) -> snd run = inr sum_total)
  /\ ((0 < verbose)%Z -> n_s = 1 -> snd run = inl (ValueError Diag)).
Proof.
  cbv zeta. pose proof set_p_0_is_mean as Hp.
  pose proof (documented_ncols_K n_s n_u p_center K k gp q_shape L_sigm verbose Hds)
    as HK.
  match goal with
  | |- _ /\ (forall v, _ -> v = ?F) /\ _ =>
      assert (E : set_sum_total p_center K k gp q_shape L_mu L_sigm c_safety verbose
                  = F)
  end.
  { unfold set_sum_total, set_sum_step. rewrite Hp.
    unfold set_sum_lagrange, set_Q_0, set_H, set_A_mu, set_B_mu, set_Jac_mu,
      set_query. now rewrite HK. }
  split; [|split; [|split]].
  - rewrite transpose_as_row. rewrite <- Hp at 2.
    unfold set_p_0, set_mu_0, set_B_mu, set_Jac_mu, set_query. now rewrite HK.
  - intros v Hr.
    destruct (documented_returned_value n_s n_u _ _ _ _ _ _ _ _ _ Hds v Hr)
      as [_ ->].
    exact E.
  - intros Hv.
    rewrite (documented_run_returns n_s n_u _ _ _ _ _ _ _ _ _ Hds Hv).
    cbn [snd]. now rewrite E.
  - intros Hpos Hn.
    now rewrite (documented_run_raises n_s n_u _ _ _ _ _ _ _ _ _ Hds Hpos Hn).
Qed.

End SetCaseExact.

(** * Malformed arguments *)

(** Reduce the outcome of a run as far as the next array operation. *)
Ltac snd_norm :=
  repeat (progress (rewrite ?snd_bind;
                    cbn [snd fst emit lift ret when print print_array
                         print_ellipsoid np_diag])).

Section Malformed.
Context {SC : Scalar} {U : EllipsoidUtils}.

(** The point branch multiplies [K] and [p_center] first: if the columns of
    a [K] with at least one row do not match the rows of [p_center],
    [np.dot] raises before anything is printed or asked of the model. *)
Lemma onestep_point_K_columns_mismatch p_center gp K k L_mu L_sigm c_safety verbose :
  0 < nrows K ->
  ncols K <> nrows p_center ->
  onestep_reachability p_center gp K k L_mu L_sigm None c_safety verbose
  = ([], inl (ValueError Dot)).
Proof.
  intros _ Hne. unfold onestep_reachability, np_shape, np_dot.
  apply Nat.eqb_neq in Hne. rewrite Hne.
  destruct (0 <? verbose)%Z; reflexivity.
Qed.

(** The point branch adds [k] to [np.dot(K, p_center)] next: row counts
    that differ, neither being 1, cannot be broadcast. *)
Lemma onestep_point_K_rows_mismatch n_s n_u m p_center gp K k L_mu L_sigm
    c_safety verbose :
  0 < m -> shape n_s 1 p_center -> shape m n_s K -> shape n_u 1 k ->
  m <> n_u -> m <> 1 -> n_u <> 1 ->
  onestep_reachability p_center gp K k L_mu L_sigm None c_safety verbose
  = ([], inl (ValueError Broadcast)).
Proof.
  intros Hm Hp HK Hk H1 H2 H3.
  unfold onestep_reachability, np_shape.
  rewrite (np_dot_shape _ _ _ _ HK (shape_nrows _ _ _ Hp) Hm).
  assert (E : np_add (mmul K p_center) k = inl (ValueError Broadcast)).
  { unfold np_add, broadcast2.
    rewrite (shape_nrows _ _ _ (shape_mmul _ _ K p_center HK)),
      (shape_nrows _ _ _ Hk).
    unfold bdim at 1.
    destruct (Nat.eqb_spec m n_u); [contradiction|].
    destruct (Nat.eqb_spec m 1); [contradiction|].
    destruct (Nat.eqb_spec n_u 1); [contradiction|]. reflexivity. }
  destruct (0 <? verbose)%Z;
    rewrite ?when_true, ?when_false, ?bind_ret, bind_lift_inr, E; reflexivity.
Qed.

(** The set branch reads the number of state entries off the columns of [K]
    and splits the Jacobian there.  [B_mu] then has [n_s + n_u - c] columns:
    either they do not match the rows of [K] in [np.dot(B_mu, K)], or they do
    not match the [n_u] rows of [k - u_bar] in the product that follows. *)
Lemma onestep_set_K_shape_mismatch n_s n_u m c p_center gp K k L_mu L_sigm
    q_shape c_safety verbose :
  0 < n_s -> 0 < n_u -> 0 < m ->
  shape n_s 1 p_center -> shape n_u 1 k -> shape m c K ->
  (m <> n_u \/ c <> n_s) ->
  shape n_s (n_s + n_u) (predictive_gradients gp (transpose (p_center ++ k))) ->
  ((0 < verbose)%Z ->
   length (snd (predict gp (transpose (p_center ++ k)))) <> 1) ->
  snd (onestep_reachability p_center gp K k L_mu L_sigm (Some q_shape)
                            c_safety verbose)
  = inl (ValueError Dot).
Proof.
  intros Hs Hu Hm Hp Hk HK Hne HJ Hv.
  pose proof (shape_ncols _ _ _ HK Hm) as HcK.
  assert (HB : shape n_s (n_s + n_u - c) (set_B_mu p_center K k gp)).
  { unfold set_B_mu. rewrite HcK. apply shape_skipn, HJ. }
  assert (HH : n_s + n_u - c = m ->
               np_add (set_A_mu p_center K k gp) (mmul (set_B_mu p_center K k gp) K)
               = inr (set_H p_center K k gp)).
  { intros E. apply (broadcast2_same_shape fadd n_s c).
    - unfold set_A_mu. rewrite HcK.
      apply shape_firstn with (c := n_s + n_u); [exact HJ | lia].
    - pose proof (shape_mmul _ _ _ K HB) as HBK. now rewrite HcK in HBK. }
  assert (Hdu : shape n_u 1 (msub k k)) by (apply shape_zip_with; exact Hk).
  unfold onestep_reachability, np_shape. cbv beta iota zeta.
  rewrite (np_vstack_shape _ _ _ _ _ Hp Hk Hs Hu).
  assert (Hpred : predict gp (set_query p_center k)
                  = (set_mu_0 p_center k gp, set_sigm_0 p_center k gp))
    by exact (surjective_pairing (predict gp (set_query p_center k))).
  assert (Hsq : (0 <? verbose)%Z = true ->
                squeeze (set_sigm_0 p_center k gp) = Arr1 (set_sigm_0 p_center k gp)).
  { intros Hb. apply squeeze_vector, Hv, Z.ltb_lt, Hb. }
  destruct (0 <? verbose)%Z;
    snd_norm; fold (set_query p_center k); rewrite Hpred; cbv beta iota zeta;
    snd_norm; rewrite ?Hsq by reflexivity; snd_norm;
    fold (set_Jac_mu p_center k gp); fold (set_A_mu p_center K k gp);
    fold (set_B_mu p_center K k gp);
    unfold np_dot at 1;
    rewrite (shape_ncols _ _ _ HB Hs), (shape_nrows _ _ _ HK);
    (destruct (Nat.eqb_spec (n_s + n_u - c) m) as [E|E]; [|reflexivity]);
    snd_norm; rewrite (HH E); snd_norm;
    rewrite (set_du_run n_u k Hk); snd_norm;
    unfold np_dot at 1;
    rewrite (shape_ncols _ _ _ HB Hs), (shape_nrows _ _ _ Hdu);
    (destruct (Nat.eqb_spec (n_s + n_u - c) n_u) as [E'|E']; [|reflexivity]);
    lia.
Qed.

(** C9, as amended.  On arguments that are otherwise of the documented
    shapes, a [K] with at least one row that is not of shape (n_u, n_s)
    makes [onestep_reachability] raise [ValueError]; no array is returned.
    - In the point branch a wrong number of columns is met by
      [np.dot(K, p_center)], and a number of rows that differs from that of
      [k], neither being 1, by the sum with [k]; in both cases nothing has
      been printed, whatever the model and the Lipschitz vectors are.
    - In the set branch the error is raised by a [np.dot], unless
      [verbose > 0] and the variance has a single entry: then the [np.diag]
      of the diagnostic raises first.
    - In the point branch the Lipschitz vectors are not looked at: whatever
      their lengths, the log and the outcome are the same.  The set branch
      depends on them through the two boxes of
      [compute_bounding_box_lagrangian] only. *)
Theorem onestep_K_shape_mismatch n_s n_u m c p_center gp K k (L_mu L_sigm : vec)
    c_safety verbose :
  0 < n_s -> 0 < n_u -> 0 < m ->
  shape n_s 1 p_center -> shape n_u 1 k -> shape m c K ->
  (m <> n_u \/ c <> n_s) ->
  shape n_s (n_s + n_u) (predictive_gradients gp (transpose (p_center ++ k))) ->
  (c <> n_s ->
   forall gp',
     onestep_reachability p_center gp' K k L_mu L_sigm None c_safety verbose
     = ([], inl (ValueError Dot)))
  /\ (c = n_s -> m <> 1 -> n_u <> 1 ->
      forall gp',
        onestep_reachability p_center gp' K k L_mu L_sigm None c_safety verbose
        = ([], inl (ValueError Broadcast)))
  /\ (forall q_shape,
        snd (onestep_reachability p_center gp K k L_mu L_sigm (Some q_shape)
                                  c_safety verbose)
        = inl (ValueError
                 (if ((0 <? verbose)%Z
                      && (length (snd (predict gp (transpose (p_center ++ k)))) =? 1))%bool
                  then Diag else Dot)))
  /\ (forall gp' (L_mu' L_sigm' : vec),
        onestep_reachability p_center gp' K k L_mu L_sigm None c_safety verbose
        = onestep_reachability p_center gp' K k L_mu' L_sigm' None c_safety verbose)
  /\ (forall gp' q_shape (L_mu' L_sigm' : vec),
        compute_bounding_box_lagrangian p_center q_shape L_mu K k 2 verbose
        = compute_bounding_box_lagrangian p_center q_shape L_mu' K k 2 verbose ->
        compute_bounding_box_lagrangian p_center q_shape L_sigm K k 1 verbose
        = compute_bounding_box_lagrangian p_center q_shape L_sigm' K k 1 verbose ->
        onestep_reachability p_center gp' K k L_mu L_sigm (Some q_shape)
                             c_safety verbose
        = onestep_reachability p_center gp' K k L_mu' L_sigm' (Some q_shape)
                               c_safety verbose).
Proof.
  intros Hs Hu Hm Hp Hk HK Hne HJ.
  split; [|split; [|split; [|split]]].
  - intros Hc gp'. apply onestep_point_K_columns_mismatch.
    + now rewrite (shape_nrows _ _ _ HK).
    + rewrite (shape_ncols _ _ _ HK Hm), (shape_nrows _ _ _ Hp). exact Hc.
  - intros Hc Hm1 Hu1 gp'. subst c.
    apply (onestep_point_K_rows_mismatch n_s n_u m); try assumption.
    destruct Hne as [Hne|Hne]; [exact Hne | contradiction].
  - intros q_shape.
    destruct (0 <? verbose)%Z eqn:Hb; cbn [andb].
    + destruct (Nat.eqb_spec
                  (length (snd (predict gp (transpose (p_center ++ k))))) 1)
        as [E|E].
      * rewrite (set_single_variance_run n_s n_u); try assumption; [reflexivity|].
        now apply Z.ltb_lt.
      * apply (onestep_set_K_shape_mismatch n_s n_u m c); try assumption.
        intros _. exact E.
    + apply (onestep_set_K_shape_mismatch n_s n_u m c); try assumption.
      intros Hpos. apply Z.ltb_lt in Hpos. congruence.
  - intros gp' L_mu' L_sigm'. reflexivity.
  - intros gp' q_shape L_mu' L_sigm' Hmu Hsigm.
    unfold onestep_reachability. now rewrite Hmu, Hsigm.
Qed.

End Malformed.

(** * Diagnostics *)

Section Diagnostics.
Context {SC : Scalar} {U : EllipsoidUtils}.

(** X9. With [verbose <= 0] the set branch still prints its last two ellipsoids. *)
Lemma onestep_set_prints_when_quiet n_s n_u p_center gp K k L_mu L_sigm q_shape
    c_safety verbose :
  set_well_shaped n_s n_u p_center gp K k L_sigm q_shape verbose ->
  (verbose <= 0)%Z ->
  exists p_new Q_new p_1 q_1,
    onestep_reachability p_center gp K k L_mu L_sigm (Some q_shape) c_safety verbose
    = ([PrintEllipsoid p_new Q_new "accumulated uncertainty current step"%string;
        PrintEllipsoid p_1 q_1 "sum old and new uncertainty"%string],
       inr (p_1, q_1)).
Proof.
  intros Hws Hv. rewrite (set_case_run n_s n_u) by exact Hws.
  unfold set_log. apply Z.ltb_ge in Hv. rewrite Hv. simpl.
  do 4 eexists. rewrite <- surjective_pairing. reflexivity.
Qed.

(** X7. In the point branch the outcome (the returned arrays or the error) is
    the same for every [verbose]. *)
Lemma onestep_point_outcome_verbose_independent
    p_center gp K k L_mu L_sigm c_safety verbose verbose' :
  snd (onestep_reachability p_center gp K k L_mu L_sigm None c_safety verbose)
  = snd (onestep_reachability p_center gp K k L_mu L_sigm None c_safety verbose').
Proof.
  unfold onestep_reachability, np_shape.
  repeat (rewrite ?snd_bind; rewrite ?snd_when_print by reflexivity;
          cbn [snd lift ret];
          try match goal with
              | |- context [match ?x with inl _ => _ | inr _ => _ end] => destruct x
              | |- context [let (_, _) := ?x in _] => destruct x
              end;
          try reflexivity).
Qed.

(** X8. In the set branch the returned arrays are the same for every [verbose],
    as long as the remainder boxes are and the call is well-shaped for both. *)
Lemma onestep_set_outcome_verbose_independent n_s n_u p_center gp K k L_mu L_sigm
    q_shape c_safety verbose verbose' :
  set_well_shaped n_s n_u p_center gp K k L_sigm q_shape verbose ->
  set_well_shaped n_s n_u p_center gp K k L_sigm q_shape verbose' ->
  (forall L order,
      compute_bounding_box_lagrangian p_center q_shape L K k order verbose
      = compute_bounding_box_lagrangian p_center q_shape L K k order verbose') ->
  snd (onestep_reachability p_center gp K k L_mu L_sigm (Some q_shape) c_safety verbose)
  = snd (onestep_reachability p_center gp K k L_mu L_sigm (Some q_shape) c_safety verbose').
Proof.
  intros Hws Hws' Hbox.
  rewrite (set_case_run n_s n_u) by exact Hws.
  rewrite (set_case_run n_s n_u) by exact Hws'.
  simpl. f_equal.
  unfold set_sum_total, set_sum_step, set_sum_lagrange, set_Q_lagrange_sigm,
    set_Q_lagrange_mu, set_box_mean, set_box_sigm.
  now rewrite !Hbox.
Qed.

End Diagnostics.

(** * The safety scaling *)

Section SafetyScaling.
Context {SC : Scalar} {OA : OrderedArith SC} {U : EllipsoidUtils}.

Lemma entry_diag_matrix i j (v : vec) :
  entry i j (diag_matrix v) = if Nat.eqb i j then nth i v fzero else fzero.
Proof.
  unfold entry, diag_matrix.
  destruct (Nat.lt_ge_cases i (length v)) as [Hi|Hi].
  - rewrite (nth_indep _ [] (map (fun j0 => if Nat.eqb 0 j0 then nth 0 v fzero else fzero)
                                 (seq 0 (length v))))
      by (now rewrite length_map, length_seq).
    rewrite (map_nth (fun i0 => map (fun j0 => if Nat.eqb i0 j0 then nth i0 v fzero else fzero)
                                    (seq 0 (length v)))).
    rewrite seq_nth by exact Hi. simpl.
    destruct (Nat.lt_ge_cases j (length v)) as [Hj|Hj].
    + rewrite (nth_indep _ fzero (if Nat.eqb i 0 then nth i v fzero else fzero))
        by (now rewrite length_map, length_seq).
      rewrite (map_nth (fun j0 => if Nat.eqb i j0 then nth i v fzero else fzero)).
      now rewrite seq_nth by exact Hj.
    + rewrite nth_overflow by (now rewrite length_map, length_seq).
      destruct (Nat.eqb_spec i j); [lia | reflexivity].
  - rewrite (nth_overflow _ [] ) by (now rewrite length_map, length_seq).
    rewrite (nth_overflow v) by exact Hi.
    destruct j; destruct (Nat.eqb i _); reflexivity.
Qed.

Lemma diag_matrix_le (f g : num -> num) (v : vec) :
  (forall x, In x v -> fle (f x) (g x)) ->
  mat_le (diag_matrix (map f v)) (diag_matrix (map g v)).
Proof.
  intros Hfg i j. rewrite !entry_diag_matrix.
  destruct (Nat.eqb i j); [|apply fle_refl].
  destruct (Nat.lt_ge_cases i (length v)) as [Hi|Hi].
  - rewrite (nth_indep (map f v) fzero (f fzero)) by (now rewrite length_map).
    rewrite (nth_indep (map g v) fzero (g fzero)) by (now rewrite length_map).
    rewrite !map_nth. apply Hfg, nth_In, Hi.
  - rewrite !nth_overflow by (now rewrite length_map). apply fle_refl.
Qed.

(** X12. In the point branch a larger [c_safety] gives an entrywise larger shape
    matrix, provided the model's variance is not negative. *)
Lemma onestep_point_c_safety_monotone n_s n_u p_center gp K k L_mu L_sigm
    c1 c2 verbose Q1 Q2 p_1 p_2 :
  0 < n_s -> 0 < n_u ->
  shape n_s 1 p_center -> shape n_u n_s K -> shape n_u 1 k ->
  let z := transpose (p_center ++ madd (mmul K p_center) k) in
  length (fst (predict gp z)) = n_s ->
  Forall (fle fzero) (snd (predict gp z)) ->
  fle c1 c2 ->
  snd (onestep_reachability p_center gp K k L_mu L_sigm None c1 verbose)
  = inr (p_1, Q1) ->
  snd (onestep_reachability p_center gp K k L_mu L_sigm None c2 verbose)
  = inr (p_2, Q2) ->
  p_1 = p_2 /\ mat_le Q1 Q2.
Proof.
  intros Hs Hu Hp HK Hk z Hmean Hvar Hc.
  rewrite !(onestep_point_run n_s n_u p_center K k gp Hs Hu Hp HK Hk) by exact Hmean.
  unfold point_query, point_action. fold z.
  destruct (squeeze (snd (predict gp z))) as [x|v] eqn:Hsq; simpl; try discriminate.
  intros E1 E2. injection E1 as <- <-. injection E2 as <- <-.
  split; [reflexivity|].
  apply diag_matrix_le. intros x Hx.
  apply fmul_le_mono_l; [|exact Hc].
  assert (v = snd (predict gp z)) as ->
    by (destruct (snd (predict gp z)) as [|a [|b l]]; simpl in Hsq; congruence).
  rewrite Forall_forall in Hvar. now apply Hvar.
Qed.

(** The set branch depends on [c_safety] through that shape only. *)
Lemma set_sum_total_scaling p_center K k gp q_shape L_mu L_sigm c1 c2 verbose :
  set_Q_lagrange_sigm p_center K k gp q_shape L_sigm c1 verbose
  = set_Q_lagrange_sigm p_center K k gp q_shape L_sigm c2 verbose ->
  set_sum_total p_center K k gp q_shape L_mu L_sigm c1 verbose
  = set_sum_total p_center K k gp q_shape L_mu L_sigm c2 verbose.
Proof.
  intros E. unfold set_sum_total, set_sum_step, set_sum_lagrange. now rewrite E.
Qed.

End SafetyScaling.

(** * Concrete runs *)

Module Runs.
Import IntegerInstance IntegerLaws Inputs.
Local Open Scope Z_scope.

(** C1, at a call with a single state dimension: the point branch computes
    the action and asks the model, but raises [ValueError] in [np.diag]
    instead of returning [p_center + mean] and [diag(c_safety * variance)]. *)
Theorem onestep_point_one_dimensional_state :
  onestep_reachability p1 gp1 K1 k1 L1 L1 None 1 1
  = ([Print (newline ++ "Applying action:")%string; PrintArray [[0]]],
     inl (ValueError Diag)).
Proof. reflexivity. Qed.

(** The same call with two state dimensions returns. *)
Example onestep_point_two_dimensional_state :
  onestep_reachability p2 gp2 K2 k2 L2_mu L2_sigm None 2 0
  = ([], inr ([[2]; [3]], [[8; 0]; [0; 18]])).
Proof. reflexivity. Qed.

(** C2 fails at a horizon of one action: the first step returns, the driver
    raises [NotImplementedError]. *)
Lemma multistep_horizon_one_raises :
  snd (onestep_reachability p2 gp2 K2 (as_column [3]) L2_mu L2_sigm None 2 0)
  = inr ([[2]; [3]], [[8; 0]; [0; 18]])
  /\ multistep_reachability p2 gp2 [K2] [[3]] L2_mu L2_sigm None 2 0
     = ([], inl (NotImplementedError "Still need to work on this!")).
Proof. split; reflexivity. Qed.

(** C3, at a call with an initial shape matrix: the first step is run from the
    point [p_0].  The driver prints what the point branch prints, and not the
    initial ellipsoid that the set branch prints first. *)
Theorem multistep_drops_initial_shape :
  fst (multistep_reachability p2 gp2 [K2] [[3]] L2_mu L2_sigm (Some q2) 2 1)
  = fst (onestep_reachability p2 gp2 K2 k2 L2_mu L2_sigm None 2 1)
  /\ fst (multistep_reachability p2 gp2 [K2] [[3]] L2_mu L2_sigm (Some q2) 2 1)
     = [Print (newline ++ "Applying action:")%string; PrintArray [[6]];
        PrintEllipsoid [[2]; [3]] [[8; 0]; [0; 18]] "uncertainty first state"]
  /\ hd_error (fst (onestep_reachability p2 gp2 K2 k2 L2_mu L2_sigm (Some q2) 2 1))
     = Some (PrintEllipsoid p2 q2 "initial uncertainty ellipsoid").
Proof. repeat split. Qed.

(** C8, at a call on an ellipsoid with [verbose = 0]: two ellipsoids are
    printed all the same. *)
Theorem onestep_set_quiet_prints :
  fst (onestep_reachability p2 gp2 K2 k2 L2_mu L2_sigm (Some q2) 2 0)
  = [PrintEllipsoid [[1]; [2]] [[51; 56]; [56; 167]]
                    "accumulated uncertainty current step";
     PrintEllipsoid [[2]; [3]] [[55; 56]; [56; 171]]
                    "sum old and new uncertainty"].
Proof. reflexivity. Qed.

(** With a single state dimension the outcome itself depends on [verbose]:
    the diagnostic [diag] of the squeezed variance raises. *)
Example onestep_set_verbose_changes_outcome :
  snd (onestep_reachability p1 gp1 K1 k1 L1 L1 (Some q1) 1 1)
  = inl (ValueError Diag)
  /\ snd (onestep_reachability p1 gp1 K1 k1 L1 L1 (Some q1) 1 0)
     = inr ([[1]], [[12]]).
Proof. split; reflexivity. Qed.

(** C9 fails in the point branch.  With two state dimensions, [L_mu] of
    length 0 and [L_sigm] of length 3 go unnoticed and arrays are returned;
    and a [K] with one row is broadcast without notice against a [k] with
    three entries, and arrays are returned. *)
Lemma onestep_point_accepts_malformed_arguments :
  (length ([] : vec) <> 2%nat /\ length ([1; 2; 3] : vec) <> 2%nat
   /\ onestep_reachability p2 gp2 K2 k2 [] [1; 2; 3] None 2 0
      = ([], inr ([[2]; [3]], [[8; 0]; [0; 18]])))
  /\ (nrows K2 <> nrows [[1]; [2]; [3]]
      /\ onestep_reachability p2 gp2 K2 [[1]; [2]; [3]] L2_mu L2_sigm None 2 0
         = ([], inr ([[2]; [3]], [[8; 0]; [0; 18]]))).
Proof. repeat split; simpl; lia. Qed.

(** A [K] with one row and a [k] with three entries are broadcast against
    each other. *)
Example onestep_point_broadcasts_action :
  onestep_reachability p2 gp2 K2 [[1]; [2]; [3]] L2_mu L2_sigm None 2 1
  = ([Print (newline ++ "Applying action:")%string; PrintArray [[4]; [5]; [6]];
      PrintEllipsoid [[2]; [3]] [[8; 0]; [0; 18]] "uncertainty first state"],
     inr ([[2]; [3]], [[8; 0]; [0; 18]])).
Proof. reflexivity. Qed.

(** The arguments with two states and one action, and those with one state
    and one action, have the documented shapes. *)
Lemma documented_shapes_2 verbose :
  set_documented_shapes 2 1 p2 gp2 K2 k2 L2_sigm q2 verbose.
Proof.
  unfold set_documented_shapes, shape; simpl.
  repeat split; try lia; repeat constructor.
Defined.

Lemma documented_shapes_1 verbose :
  set_documented_shapes 1 1 p1 gp1 K1 k1 L1 q1 verbose.
Proof.
  unfold set_documented_shapes, shape; simpl.
  repeat split; try lia; repeat constructor.
Defined.

(** The set-branch theorems at the call with two states and one action, and
    at the call with one state and [verbose = 1]. *)
Lemma onestep_set_linear_propagation_witness :
  set_documented_shapes 2 1 p2 gp2 K2 k2 L2_sigm q2 1
  /\ shape 2 2 [[1; 0]; [0; 1]] /\ shape 2 1 [[1]; [2]]
  /\ (forall v,
        snd (onestep_reachability p2 gp2 K2 k2 L2_mu L2_sigm (Some q2) 2 1) = inr v ->
        exists p_lagrange Q_lagrange p_0,
          v = sum_ellipsoids
                (fst (sum_ellipsoids p_lagrange Q_lagrange p_0 [[32; 56]; [56; 116]]))
                (snd (sum_ellipsoids p_lagrange Q_lagrange p_0 [[32; 56]; [56; 116]]))
                p2 q2
          /\ (0 < 1 ->
              In (PrintEllipsoid p_0 [[32; 56]; [56; 116]]
                                 "linear transformation uncertainty")
                 (fst (onestep_reachability p2 gp2 K2 k2 L2_mu L2_sigm (Some q2) 2 1))))
  /\ ((0 < 1 -> 2%nat <> 1%nat) ->
      exists v,
        snd (onestep_reachability p2 gp2 K2 k2 L2_mu L2_sigm (Some q2) 2 1) = inr v).
Proof.
  split; [exact (documented_shapes_2 1)|].
  exact (onestep_set_linear_propagation 2 1 p2 K2 k2 gp2 q2 L2_mu L2_sigm 2 1
                                        (documented_shapes_2 1)).
Defined.

Lemma onestep_set_three_sums_witness :
  set_documented_shapes 2 1 p2 gp2 K2 k2 L2_sigm q2 0
  /\ set_documented_shapes 1 1 p1 gp1 K1 k1 L1 q1 1
  /\ snd (onestep_reachability p2 gp2 K2 k2 L2_mu L2_sigm (Some q2) 2 0)
     = inr (sum_ellipsoids
              (madd (madd [[0]; [0]] [[0]; [0]]) [[1]; [2]])
              (madd (madd [[18; 0]; [0; 50]] [[1; 0]; [0; 1]]) [[32; 56]; [56; 116]])
              p2 q2)
  /\ snd (onestep_reachability p1 gp1 K1 k1 L1 L1 (Some q1) 1 1)
     = inl (ValueError Diag).
Proof.
  refine (conj (documented_shapes_2 0) (conj (documented_shapes_1 1) (conj _ _))).
  - refine (proj1 (proj2 (onestep_set_three_sums 2 1 p2 K2 k2 gp2 q2 L2_mu L2_sigm
                            2 0 (documented_shapes_2 0))) _).
    intros H; lia.
  - refine (proj2 (proj2 (onestep_set_three_sums 1 1 p1 K1 k1 gp1 q1 L1 L1
                            1 1 (documented_shapes_1 1))) _ _);
      [lia | reflexivity].
Defined.

Lemma onestep_set_linearization_point_witness :
  set_documented_shapes 2 1 p2 gp2 K2 k2 L2_sigm q2 0
  /\ set_documented_shapes 1 1 p1 gp1 K1 k1 L1 q1 1
  /\ madd (transpose (as_row [1; 2])) (mmul [[1]; [2]] (msub k2 k2)) = [[1]; [2]]
  /\ snd (onestep_reachability p2 gp2 K2 k2 L2_mu L2_sigm (Some q2) 2 0)
     = inr ([[2]; [3]], [[55; 56]; [56; 171]])
  /\ snd (onestep_reachability p1 gp1 K1 k1 L1 L1 (Some q1) 1 1)
     = inl (ValueError Diag).
Proof.
  refine (conj (documented_shapes_2 0) (conj (documented_shapes_1 1)
            (conj _ (conj _ _)))).
  - exact (proj1 (onestep_set_linearization_point 2 1 p2 K2 k2 gp2 q2 L2_mu L2_sigm
                    2 0 (documented_shapes_2 0))).
  - refine (proj1 (proj2 (proj2 (onestep_set_linearization_point 2 1 p2 K2 k2 gp2 q2
                                   L2_mu L2_sigm 2 0 (documented_shapes_2 0)))) _).
    intros H; lia.
  - refine (proj2 (proj2 (proj2 (onestep_set_linearization_point 1 1 p1 K1 k1 gp1 q1
                                   L1 L1 1 1 (documented_shapes_1 1)))) _ _);
      [lia | reflexivity].
Defined.

(** A [K] with three columns for two states. *)
Lemma onestep_K_shape_mismatch_witness :
  (0 < 2)%nat /\ (0 < 1)%nat /\ (0 < 1)%nat
  /\ shape 2 1 p2 /\ shape 1 1 k2 /\ shape 1 3 [[1; 2; 3]]
  /\ (1%nat <> 1%nat \/ 3%nat <> 2%nat)
  /\ onestep_reachability p2 gp2 [[1; 2; 3]] k2 L2_mu L2_sigm None 2 1
     = ([], inl (ValueError Dot))
  /\ snd (onestep_reachability p2 gp2 [[1; 2; 3]] k2 L2_mu L2_sigm (Some q2) 2 1)
     = inl (ValueError Dot)
  /\ onestep_reachability p2 gp2 [[1; 2; 3]] k2 L2_mu L2_sigm None 2 1
     = onestep_reachability p2 gp2 [[1; 2; 3]] k2 [] [1; 2; 3] None 2 1.
Proof.
  assert (Hp : shape 2 1 p2) by (split; [reflexivity | repeat constructor]).
  assert (Hk : shape 1 1 k2) by (split; [reflexivity | repeat constructor]).
  assert (HK : shape 1 3 [[1; 2; 3]]) by (split; [reflexivity | repeat constructor]).
  assert (HJ : shape 2 (2 + 1) (predictive_gradients gp2 (transpose (p2 ++ k2))))
    by (split; [reflexivity | repeat constructor]).
  assert (Hne : 1%nat <> 1%nat \/ 3%nat <> 2%nat) by (right; lia).
  pose proof (onestep_K_shape_mismatch 2 1 1 3 p2 gp2 [[1; 2; 3]] k2 L2_mu L2_sigm
                2 1 ltac:(lia) ltac:(lia) ltac:(lia) Hp Hk HK Hne HJ)
    as (Hdot & _ & Hset & HL & _).
  refine (conj _ (conj _ (conj _ (conj Hp (conj Hk (conj HK (conj Hne
            (conj _ (conj _ _)))))))));
    try lia.
  - exact (Hdot ltac:(lia) gp2).
  - exact (Hset q2).
  - exact (HL gp2 [] [1; 2; 3]).
Defined.

End Runs.

(** * Further properties of the point branch *)

Section PointBranchRuns.
Context {SC : Scalar} {U : EllipsoidUtils}.

Lemma fst_bind {A B} (m : M A) (f : A -> M B) :
  fst (bind m f)
  = fst m ++ match snd m with inl _ => [] | inr a => fst (f a) end.
Proof.
  destruct m as [t [e|a]]; simpl; [now rewrite app_nil_r|]. now destruct (f a).
Qed.

Lemma shape_diag_matrix (v : vec) : shape (length v) (length v) (diag_matrix v).
Proof.
  unfold diag_matrix. split.
  - now rewrite length_map, length_seq.
  - apply Forall_map, Forall_forall. intros i _.
    now rewrite length_map, length_seq.
Qed.

(** What a returning run of the point branch has gone through: no shape
    hypothesis is made, the arrays may have been broadcast. *)
Lemma onestep_point_inv p_center gp K k L_mu L_sigm c_safety verbose t p_1 q_1 :
  onestep_reachability p_center gp K k L_mu L_sigm None c_safety verbose
  = (t, inr (p_1, q_1)) ->
  exists Kp u,
    np_dot K p_center = inr Kp /\ np_add Kp k = inr u /\
    np_vstack p_center u = inr (p_center ++ u) /\
    length (snd (predict gp (transpose (p_center ++ u)))) <> 1 /\
    q_1 = diag_matrix (map (fun s => fmul s c_safety)
                           (snd (predict gp (transpose (p_center ++ u))))) /\
    np_add p_center (transpose (as_row (fst (predict gp (transpose (p_center ++ u))))))
    = inr p_1 /\
    t = (if (0 <? verbose)%Z
         then [Print (newline ++ "Applying action:")%string; PrintArray u;
               PrintEllipsoid p_1 q_1 "uncertainty first state"%string]
         else []).
Proof.
  unfold onestep_reachability, np_shape.
  destruct (0 <? verbose)%Z eqn:Hv;
    rewrite ?when_true, ?when_false, ?bind_ret;
    (destruct (np_dot K p_center) as [e|Kp] eqn:E1;
       [rewrite bind_lift_inl; discriminate | rewrite bind_lift_inr]);
    (destruct (np_add Kp k) as [e|u] eqn:E2;
       [rewrite bind_lift_inl; discriminate | rewrite bind_lift_inr]);
    unfold print, print_array, print_ellipsoid;
    rewrite ?bind_assoc, ?bind_emit, ?bind_ret;
    (assert (E3 : np_vstack p_center u = inr (p_center ++ u)
                  \/ np_vstack p_center u = inl (ValueError Vstack))
       by (unfold np_vstack; destruct (Nat.eqb _ _); auto));
    (destruct E3 as [E3|E3]; rewrite E3;
       [rewrite bind_lift_inr | rewrite bind_lift_inl; discriminate]);
    destruct (predict gp (transpose (p_center ++ u))) as [mean var] eqn:Ep;
    (destruct var as [|x [|y var]]; cbn [squeeze scale_r np_diag];
       rewrite ?bind_lift_inl, ?bind_lift_inr; try discriminate);
    (destruct (np_add p_center (transpose (as_row mean))) as [e|p1] eqn:E4;
       [rewrite bind_lift_inl; discriminate | rewrite bind_lift_inr]);
    rewrite ?bind_emit, ?bind_ret; cbn [fst snd ret];
    intros Hrun; injection Hrun as <- <- <-;
    exists Kp, u; rewrite Ep; cbn [fst snd length map];
    repeat split; auto; try discriminate.
Qed.

End PointBranchRuns.

Section PointBranchProperties.
Context {SC : Scalar}.

(** X3. On well-shaped arguments, with a predicted variance of [n_s <> 1]
    entries, the point branch returns a centre of shape (n_s, 1) and a shape
    matrix of shape (n_s, n_s), as the docstring announces. *)
Theorem onestep_point_output_shapes {U : EllipsoidUtils}
    n_s n_u p_center gp K k L_mu L_sigm c_safety verbose :
  0 < n_s -> 0 < n_u ->
  shape n_s 1 p_center -> shape n_u n_s K -> shape n_u 1 k ->
  let z := transpose (p_center ++ madd (mmul K p_center) k) in
  length (fst (predict gp z)) = n_s ->
  length (snd (predict gp z)) = n_s ->
  n_s <> 1 ->
  exists p_1 q_1,
    snd (onestep_reachability p_center gp K k L_mu L_sigm None c_safety verbose)
    = inr (p_1, q_1)
    /\ shape n_s 1 p_1 /\ shape n_s n_s q_1.
Proof.
  intros Hs Hu Hp HK Hk z Hmean Hvar Hne.
  rewrite (onestep_point_run n_s n_u p_center K k gp Hs Hu Hp HK Hk) by exact Hmean.
  unfold point_query, point_action. fold z.
  rewrite squeeze_vector by congruence. simpl.
  do 2 eexists. split; [reflexivity|]. split.
  - apply shape_zip_with; [exact Hp|].
    rewrite <- Hmean. apply shape_as_column.
  - pose proof (shape_diag_matrix (map (fun x => fmul x c_safety) (snd (predict gp z))))
      as Hd.
    now rewrite length_map, Hvar in Hd.
Qed.


(** X6. With [verbose > 0] a returning point branch has printed exactly three
    items: the line announcing the action, the action, and last the very
    ellipsoid it returns. *)
Theorem onestep_point_prints_result {U : EllipsoidUtils}
    p_center gp K k L_mu L_sigm c_safety verbose t p_1 q_1 :
  (0 < verbose)%Z ->
  onestep_reachability p_center gp K k L_mu L_sigm None c_safety verbose
  = (t, inr (p_1, q_1)) ->
  exists Kp u,
    np_dot K p_center = inr Kp /\ np_add Kp k = inr u /\
    t = [Print (newline ++ "Applying action:")%string; PrintArray u;
         PrintEllipsoid p_1 q_1 "uncertainty first state"%string].
Proof.
  intros Hv Hrun.
  destruct (onestep_point_inv _ _ _ _ _ _ _ _ _ _ _ Hrun)
    as (Kp & u & E1 & E2 & _ & _ & _ & _ & Ht).
  exists Kp, u. apply Z.ltb_lt in Hv. rewrite Hv in Ht. auto.
Qed.

(** X13. The point branch asks nothing of the model but [predict], and calls
    none of the imported ellipsoid helpers: two models with the same
    [predict] give the same log and the same outcome, whatever their
    Jacobians and whatever the helpers are. *)
Theorem onestep_point_uses_predict_only (U U' : EllipsoidUtils)
    p_center (gp gp' : GP) K k L_mu L_sigm c_safety verbose :
  (forall z, predict gp z = predict gp' z) ->
  @onestep_reachability SC U p_center gp K k L_mu L_sigm None c_safety verbose
  = @onestep_reachability SC U' p_center gp' K k L_mu L_sigm None c_safety verbose.
Proof.
  intros Hp. unfold onestep_reachability, np_shape.
  destruct (0 <? verbose)%Z; rewrite ?when_true, ?when_false, ?bind_ret;
    (destruct (np_dot K p_center) as [e|Kp]; [reflexivity | rewrite !bind_lift_inr]);
    (destruct (np_add Kp k) as [e|u]; [reflexivity | rewrite !bind_lift_inr]);
    unfold print, print_array; rewrite ?bind_assoc, ?bind_emit, ?bind_ret;
    (destruct (np_vstack p_center u) as [e|z]; [reflexivity | rewrite !bind_lift_inr]);
    rewrite Hp; reflexivity.
Qed.

(** X19. In the point branch a [K] with [n_u] rows and a [k] with [m] rows,
    where [n_u] and [m] differ and neither is 1, cannot be broadcast: the
    sum [np.dot(K, p_center) + k] raises [ValueError] before anything is
    printed or asked of the model. *)
Theorem onestep_point_action_rows_mismatch {U : EllipsoidUtils}
    n_s n_u m p_center gp K k L_mu L_sigm c_safety verbose :
  0 < n_u -> shape n_s 1 p_center -> shape n_u n_s K -> nrows k = m ->
  n_u <> m -> n_u <> 1 -> m <> 1 ->
  onestep_reachability p_center gp K k L_mu L_sigm None c_safety verbose
  = ([], inl (ValueError Broadcast)).
Proof.
  intros Hu Hp HK Hm H1 H2 H3.
  unfold onestep_reachability, np_shape.
  rewrite (np_dot_shape _ _ _ _ HK (shape_nrows _ _ _ Hp) Hu).
  assert (E : np_add (mmul K p_center) k = inl (ValueError Broadcast)).
  { unfold np_add, broadcast2.
    rewrite (shape_nrows _ _ _ (shape_mmul _ _ K p_center HK)), Hm.
    unfold bdim at 1.
    destruct (Nat.eqb_spec n_u m); [contradiction|].
    destruct (Nat.eqb_spec n_u 1); [contradiction|].
    destruct (Nat.eqb_spec m 1); [contradiction|]. reflexivity. }
  destruct (0 <? verbose)%Z;
    rewrite ?when_true, ?when_false, ?bind_ret, bind_lift_inr, E; reflexivity.
Qed.

(** X20. In the point branch a [k] with a single entry is broadcast over the
    [n_u] actions without any notice: the call behaves in every respect as
    the call with that entry repeated [n_u] times. *)
Theorem onestep_point_broadcasts_single_offset {U : EllipsoidUtils}
    n_s n_u p_center gp K (c : num) L_mu L_sigm c_safety verbose :
  0 < n_s -> 0 < n_u -> shape n_s 1 p_center -> shape n_u n_s K ->
  onestep_reachability p_center gp K [[c]] L_mu L_sigm None c_safety verbose
  = onestep_reachability p_center gp K (repeat [c] n_u) L_mu L_sigm None
                         c_safety verbose.
Proof.
  intros Hs Hu Hp HK.
  assert (Ha : shape n_u 1 (mmul K p_center)).
  { rewrite <- (shape_ncols _ _ _ Hp Hs). eapply shape_mmul; exact HK. }
  assert (Hr : shape n_u 1 (repeat [c] n_u)).
  { split; [apply repeat_length|]. apply Forall_forall.
    intros row Hin. apply repeat_spec in Hin. now subst. }
  assert (E : np_add (mmul K p_center) [[c]]
              = np_add (mmul K p_center) (repeat [c] n_u)).
  { unfold np_add. rewrite (broadcast2_same_shape fadd _ _ _ _ Ha Hr).
    unfold broadcast2.
    rewrite (shape_nrows _ _ _ Ha), (shape_ncols _ _ _ Ha Hu).
    replace (bdim n_u (nrows [[c]])) with (Some n_u)
      by (unfold bdim, nrows; simpl;
          destruct (Nat.eqb_spec n_u 1); [now subst | reflexivity]).
    change (ncols [[c]]) with 1. rewrite bdim_same. f_equal.
    rewrite (stretch_id n_u (mmul K p_center)) by apply Ha.
    change (stretch n_u [[c]]) with (repeat [c] n_u).
    apply zip_with_stretch_rows; [apply Ha | apply Hr]. }
  unfold onestep_reachability, np_shape.
  rewrite (np_dot_shape _ _ _ _ HK (shape_nrows _ _ _ Hp) Hu).
  destruct (0 <? verbose)%Z;
    rewrite ?when_true, ?when_false, ?bind_ret, !bind_lift_inr, E; reflexivity.
Qed.

End PointBranchProperties.

(** * Further properties of the set branch *)

Section SetBranchProperties.
Context {SC : Scalar} {U : EllipsoidUtils}.

(** X21. If [p_center] and [k] have at least one row each and not the same
    number of columns, the set branch raises [ValueError] in [np.vstack],
    before the model is asked; with [verbose > 0] it has printed the input
    ellipsoid by then. *)
Theorem onestep_set_vstack_mismatch
    p_center gp K k L_mu L_sigm q_shape c_safety verbose :
  0 < nrows p_center -> 0 < nrows k ->
  ncols p_center <> ncols k ->
  onestep_reachability p_center gp K k L_mu L_sigm (Some q_shape) c_safety verbose
  = (if (0 <? verbose)%Z
     then [PrintEllipsoid p_center q_shape "initial uncertainty ellipsoid"%string]
     else [],
     inl (ValueError Vstack)).
Proof.
  intros _ _ Hne. apply Nat.eqb_neq in Hne.
  unfold onestep_reachability, np_shape, np_vstack. rewrite Hne.
  destruct (0 <? verbose)%Z; reflexivity.
Qed.

(** X11. With [verbose > 0] and a predicted variance of a single entry the
    set branch raises [ValueError]: the diagnostic of the predictive
    distribution applies [diag] to the squeezed variance.  Three items have
    been printed by then. *)
Theorem onestep_set_single_variance_raises
    n_s n_u p_center gp K k L_mu L_sigm q_shape c_safety verbose :
  0 < n_s -> 0 < n_u -> shape n_s 1 p_center -> shape n_u 1 k ->
  (0 < verbose)%Z ->
  length (snd (predict gp (transpose (p_center ++ k)))) = 1 ->
  onestep_reachability p_center gp K k L_mu L_sigm (Some q_shape) c_safety verbose
  = ([PrintEllipsoid p_center q_shape "initial uncertainty ellipsoid"%string;
      Print (newline ++ "Applying action:")%string; PrintArray k],
     inl (ValueError Diag)).
Proof.
  intros Hs Hu Hp Hk Hv Hvar. apply Z.ltb_lt in Hv.
  unfold onestep_reachability, np_shape. cbv beta iota zeta.
  rewrite (set_vstack_run n_s n_u p_center k Hs Hu Hp Hk), Hv, !when_true.
  unfold print, print_array, print_ellipsoid.
  rewrite ?bind_emit, ?bind_ret, ?bind_lift_inr, ?bind_assoc.
  destruct (predict gp (transpose (p_center ++ k))) as [mu_0 sigm_0].
  destruct sigm_0 as [|x [|y sigm_0]]; try discriminate.
  reflexivity.
Qed.

(** X18. The set branch asks the model at the one row [[p_center; k].T]: two
    models that agree there, in [predict] and in [predictive_gradients],
    give the same log and the same outcome. *)
Theorem onestep_set_asks_model_at_one_row
    p_center (gp gp' : GP) K k L_mu L_sigm q_shape c_safety verbose :
  predict gp (transpose (p_center ++ k)) = predict gp' (transpose (p_center ++ k)) ->
  predictive_gradients gp (transpose (p_center ++ k))
  = predictive_gradients gp' (transpose (p_center ++ k)) ->
  onestep_reachability p_center gp K k L_mu L_sigm (Some q_shape) c_safety verbose
  = onestep_reachability p_center gp' K k L_mu L_sigm (Some q_shape) c_safety verbose.
Proof.
  intros Hp Hg. unfold onestep_reachability, np_shape, np_vstack.
  cbv beta iota zeta.
  destruct (Nat.eqb (ncols p_center) (ncols k)).
  - destruct (0 <? verbose)%Z;
      rewrite ?when_true, ?when_false; unfold print, print_array, print_ellipsoid;
      rewrite ?bind_emit, ?bind_ret, ?bind_lift_inr, ?bind_assoc;
      rewrite Hp, Hg; reflexivity.
  - destruct (0 <? verbose)%Z; reflexivity.
Qed.


End SetBranchProperties.

(** ** Shape errors in the set branch *)

Section SetBranchErrors.
Context {SC : Scalar} {U : EllipsoidUtils}.

Variables (n_s n_u : nat) (p_center K k : mat) (gp : GP).
Variables (L_mu L_sigm : vec) (c_safety : num) (verbose : Z).

Local Notation z_bar := (set_query p_center k).
Local Notation mu_0 := (set_mu_0 p_center k gp).
Local Notation sigm_0 := (set_sigm_0 p_center k gp).
Local Notation Jac_mu := (set_Jac_mu p_center k gp).
Local Notation A_mu := (set_A_mu p_center K k gp).
Local Notation B_mu := (set_B_mu p_center K k gp).
Local Notation H := (set_H p_center K k gp).
Local Notation p_0 := (set_p_0 p_center K k gp).

Hypothesis n_s_pos : 0 < n_s.
Hypothesis n_u_pos : 0 < n_u.
Hypothesis p_shape : shape n_s 1 p_center.
Hypothesis K_shape : shape n_u n_s K.
Hypothesis k_shape : shape n_u 1 k.
Hypothesis mu_shape : length mu_0 = n_s.
Hypothesis Jac_shape : shape n_s (n_s + n_u) Jac_mu.
Hypothesis sigm_squeeze : (0 < verbose)%Z -> length sigm_0 <> 1.

Lemma affine_ncols_K : ncols K = n_s.
Proof. exact (shape_ncols _ _ _ K_shape n_u_pos). Qed.

Lemma affine_A_shape : shape n_s n_s A_mu.
Proof.
  unfold set_A_mu. rewrite affine_ncols_K.
  apply shape_firstn with (c := n_s + n_u); [exact Jac_shape | apply Nat.le_add_r].
Qed.

Lemma affine_B_shape : shape n_s n_u B_mu.
Proof.
  unfold set_B_mu. rewrite affine_ncols_K.
  replace n_u with (n_s + n_u - n_s) at 1 by (rewrite Nat.add_comm; apply Nat.add_sub).
  apply shape_skipn, Jac_shape.
Qed.

Lemma affine_H_shape : shape n_s n_s H.
Proof.
  apply shape_zip_with; [exact affine_A_shape|].
  rewrite <- affine_ncols_K at 2. eapply shape_mmul; exact affine_B_shape.
Qed.

Lemma affine_Ht_shape : shape n_s n_s (transpose H).
Proof.
  pose proof (shape_transpose H) as Ht.
  now rewrite (shape_ncols _ _ _ affine_H_shape n_s_pos),
    (shape_nrows _ _ _ affine_H_shape) in Ht.
Qed.

(** The array operations up to the centre [p_0] succeed. *)
Lemma affine_BK_run : np_dot B_mu K = inr (mmul B_mu K).
Proof.
  exact (np_dot_shape _ _ _ _ affine_B_shape (shape_nrows _ _ _ K_shape) n_s_pos).
Qed.

Lemma affine_H_run : np_add A_mu (mmul B_mu K) = inr H.
Proof.
  unfold np_add.
  rewrite (broadcast2_same_shape fadd n_s n_s A_mu (mmul B_mu K) affine_A_shape);
    [reflexivity|].
  rewrite <- affine_ncols_K at 2. eapply shape_mmul; exact affine_B_shape.
Qed.

Lemma affine_du_shape : shape n_u 1 (msub k k).
Proof. apply shape_zip_with; exact k_shape. Qed.

Lemma affine_Bdu_run : np_dot B_mu (msub k k) = inr (mmul B_mu (msub k k)).
Proof.
  exact (np_dot_shape _ _ _ _ affine_B_shape (shape_nrows _ _ _ affine_du_shape)
                      n_s_pos).
Qed.

Lemma affine_p_0_run :
  np_add (transpose (as_row mu_0)) (mmul B_mu (msub k k)) = inr p_0.
Proof.
  rewrite transpose_as_row. unfold np_add.
  rewrite (broadcast2_same_shape fadd n_s 1); [reflexivity| |].
  - rewrite <- mu_shape. apply shape_as_column.
  - rewrite <- (shape_ncols _ _ _ affine_du_shape n_u_pos).
    eapply shape_mmul; exact affine_B_shape.
Qed.

(** The outcome of the set branch up to the centre [p_0]. *)
Ltac affine_steps :=
  rewrite affine_BK_run; snd_norm; rewrite affine_H_run; snd_norm;
  rewrite (set_du_run n_u k k_shape); snd_norm;
  rewrite affine_Bdu_run; snd_norm; rewrite affine_p_0_run; snd_norm.


(** X23. The set branch adds the upper bound of the first-order remainder
    box to the square roots of the variance.  If the box has [m] entries and
    the variance [n], with [m] and [n] different and neither equal to 1, this
    sum raises [ValueError]: nothing is returned. *)
Theorem onestep_set_bounds_mismatch n m (q_shape : mat) :
  shape n_s n_s q_shape ->
  length sigm_0 = n ->
  length (snd (compute_bounding_box_lagrangian p_center q_shape L_sigm K k 1 verbose))
  = m ->
  m <> n -> m <> 1 -> n <> 1 ->
  snd (onestep_reachability p_center gp K k L_mu L_sigm (Some q_shape)
                            c_safety verbose)
  = inl (ValueError Broadcast).
Proof.
  intros Hq Hn Hm Hmn Hm1 Hn1.
  unfold onestep_reachability, np_shape. cbv beta iota zeta.
  rewrite (set_vstack_run n_s n_u p_center k n_s_pos n_u_pos p_shape k_shape).
  assert (Hpred : predict gp z_bar = (mu_0, sigm_0))
    by exact (surjective_pairing (predict gp z_bar)).
  assert (Hsq : squeeze sigm_0 = Arr1 sigm_0)
    by (apply squeeze_vector; congruence).
  assert (HqHt : np_dot q_shape (transpose H) = inr (mmul q_shape (transpose H))).
  { exact (np_dot_shape _ _ _ _ Hq (shape_nrows _ _ _ affine_Ht_shape) n_s_pos). }
  assert (HQ0 : np_dot H (mmul q_shape (transpose H))
                = inr (mmul H (mmul q_shape (transpose H)))).
  { exact (np_dot_shape _ _ _ _ affine_H_shape
             (shape_nrows _ _ _ (shape_mmul _ _ q_shape (transpose H) Hq)) n_s_pos). }
  assert (Hsum : forall ub : vec,
             length ub = m ->
             broadcast1 fadd ub (map fsqrt sigm_0) = inl (ValueError Broadcast)).
  { intros ub Hub. unfold broadcast1, bdim. rewrite length_map, Hub, Hn.
    destruct (Nat.eqb_spec m n); [contradiction|].
    destruct (Nat.eqb_spec m 1); [contradiction|].
    destruct (Nat.eqb_spec n 1); [contradiction|]. reflexivity. }
  destruct (compute_bounding_box_lagrangian p_center q_shape L_sigm K k 1 verbose)
    as [lb_sigm ub_sigm] eqn:Hbox.
  destruct (compute_bounding_box_lagrangian p_center q_shape L_mu K k 2 verbose)
    as [lb_mean ub_mean] eqn:Hbox'.
  cbn [snd] in Hm.
  destruct (0 <? verbose)%Z;
    snd_norm; fold z_bar; rewrite Hpred; cbv beta iota zeta;
    snd_norm; rewrite ?Hsq; snd_norm;
    fold Jac_mu; fold A_mu; fold B_mu;
    affine_steps;
    rewrite HqHt; snd_norm; rewrite HQ0; snd_norm;
    rewrite ?Hbox, ?Hbox'; cbv beta iota zeta; snd_norm;
    rewrite (Hsum ub_sigm Hm); reflexivity.
Qed.

End SetBranchErrors.

(** * Further properties of the multi-step driver *)

Section MultistepRuns.
Context {SC : Scalar} {U : EllipsoidUtils}.

(** X14. For a horizon of zero steps the driver raises [IndexError] at
    [K[0]], and for gains [k] without a row at [k[0, :, None]]; in both cases
    nothing is printed and the model is not asked. *)
Theorem multistep_empty_horizon p_0 gp (K : list mat) (k : mat)
    L_mu L_sigm q_0 c_safety verbose :
  multistep_reachability p_0 gp [] k L_mu L_sigm q_0 c_safety verbose
  = ([], inl IndexError)
  /\ multistep_reachability p_0 gp K [] L_mu L_sigm q_0 c_safety verbose
     = ([], inl IndexError).
Proof.
  split; [reflexivity|]. destruct K; reflexivity.
Qed.

(** X15. The driver depends on the first gains only: the later entries of
    [K] and [k], the initial shape [q_0] and the Lipschitz constants have no
    influence on what it prints and raises. *)
Theorem multistep_first_gains_only p_0 gp (K_0 : mat) (K_rest K_rest' : list mat)
    (k_0 : vec) (k_rest k_rest' : mat) (L_mu L_sigm L_mu' L_sigm' : vec)
    (q_0 q_0' : option mat) c_safety verbose :
  multistep_reachability p_0 gp (K_0 :: K_rest) (k_0 :: k_rest)
                         L_mu L_sigm q_0 c_safety verbose
  = multistep_reachability p_0 gp (K_0 :: K_rest') (k_0 :: k_rest')
                           L_mu' L_sigm' q_0' c_safety verbose.
Proof. reflexivity. Qed.

(** X16. A first gain matrix with at least one row whose columns do not
    match the rows of [p_0] is reported as the [ValueError] of [np.dot], not
    as the missing implementation; nothing is printed. *)
Theorem multistep_gain_columns_mismatch p_0 gp (K_0 : mat) (K_rest : list mat)
    (k_0 : vec) (k_rest : mat) L_mu L_sigm q_0 c_safety verbose :
  0 < nrows K_0 ->
  ncols K_0 <> nrows p_0 ->
  multistep_reachability p_0 gp (K_0 :: K_rest) (k_0 :: k_rest)
                         L_mu L_sigm q_0 c_safety verbose
  = ([], inl (ValueError Dot)).
Proof.
  intros HK Hne. unfold multistep_reachability. rewrite !bind_lift_inr.
  now rewrite onestep_point_K_columns_mismatch.
Qed.

(** X17. On well-shaped arguments (more than one state dimension) and with
    [verbose > 0], the driver prints the action of the first step and the
    ellipsoid [p_0 + mean], [diag(variance * c_safety)] that this step has
    computed, and then raises [NotImplementedError]: the first step is
    visible in the log only. *)
Theorem multistep_prints_first_step n_s n_u p_0 gp (K_0 : mat) (K_rest : list mat)
    (k_0 : vec) (k_rest : mat) L_mu L_sigm q_0 c_safety verbose :
  0 < n_s -> 0 < n_u ->
  shape n_s 1 p_0 -> shape n_u n_s K_0 -> length k_0 = n_u ->
  let u := madd (mmul K_0 p_0) (as_column k_0) in
  let z := transpose (p_0 ++ u) in
  length (fst (predict gp z)) = n_s ->
  length (snd (predict gp z)) <> 1 ->
  (0 < verbose)%Z ->
  multistep_reachability p_0 gp (K_0 :: K_rest) (k_0 :: k_rest)
                         L_mu L_sigm q_0 c_safety verbose
  = ([Print (newline ++ "Applying action:")%string; PrintArray u;
      PrintEllipsoid (madd p_0 (as_column (fst (predict gp z))))
                     (diag_matrix (map (fun s => fmul s c_safety)
                                       (snd (predict gp z))))
                     "uncertainty first state"%string],
     inl not_implemented).
Proof.
  intros Hs Hu Hp HK Hk u z Hmean Hvar Hv.
  assert (Hk' : shape n_u 1 (as_column k_0))
    by (rewrite <- Hk; apply shape_as_column).
  unfold multistep_reachability. rewrite !bind_lift_inr.
  rewrite (onestep_point_run n_s n_u p_0 K_0 (as_column k_0) gp Hs Hu Hp HK Hk')
    by exact Hmean.
  unfold point_query, point_action, point_log. fold u z.
  rewrite (squeeze_vector _ Hvar). apply Z.ltb_lt in Hv. rewrite Hv.
  reflexivity.
Qed.

End MultistepRuns.

(** * Diagonal shape matrices *)

Section NonNegativeDiagonals.
Context {SC : Scalar} {AZ : AbsorbingZero SC} {OA : OrderedArith SC}.
Context {U : EllipsoidUtils}.

Lemma fmul_nonneg (a b : num) : fle fzero a -> fle fzero b -> fle fzero (fmul a b).
Proof.
  intros Ha Hb. pose proof (fmul_le_mono_l fzero b a Ha Hb) as Hle.
  now rewrite fmul_zero_absorb in Hle.
Qed.

Lemma diag_matrix_off_diagonal (v : vec) i j :
  i <> j -> entry i j (diag_matrix v) = fzero.
Proof.
  intros Hij. rewrite entry_diag_matrix.
  now destruct (Nat.eqb_spec i j).
Qed.

Lemma diag_matrix_nonneg (v : vec) i :
  Forall (fle fzero) v -> fle fzero (entry i i (diag_matrix v)).
Proof.
  intros Hv. rewrite entry_diag_matrix, Nat.eqb_refl.
  destruct (Nat.lt_ge_cases i (length v)) as [Hi|Hi].
  - rewrite Forall_forall in Hv. apply Hv, nth_In, Hi.
  - rewrite nth_overflow by exact Hi. apply fle_refl.
Qed.

(** X4. For a model whose variance is never negative and for
    [c_safety >= 0], the shape matrix that the point branch returns is
    diagonal with a non-negative diagonal: every entry off the diagonal is
    zero and no entry on it is negative. *)
Theorem onestep_point_shape_diagonal_nonneg
    p_center gp K k L_mu L_sigm c_safety verbose p_1 q_1 :
  (forall z, Forall (fle fzero) (snd (predict gp z))) ->
  fle fzero c_safety ->
  snd (onestep_reachability p_center gp K k L_mu L_sigm None c_safety verbose)
  = inr (p_1, q_1) ->
  (forall i j, i <> j -> entry i j q_1 = fzero)
  /\ (forall i, fle fzero (entry i i q_1)).
Proof.
  intros Hvar Hc Hrun.
  destruct (onestep_reachability p_center gp K k L_mu L_sigm None c_safety verbose)
    as [t r] eqn:E.
  cbn [snd] in Hrun. subst r.
  destruct (onestep_point_inv _ _ _ _ _ _ _ _ _ _ _ E)
    as (Kp & u & _ & _ & _ & _ & Hq & _ & _).
  subst q_1. split.
  - intros i j Hij. now apply diag_matrix_off_diagonal.
  - intros i. apply diag_matrix_nonneg.
    apply Forall_map. eapply Forall_impl; [|apply Hvar].
    intros s Hs. cbv beta. now apply fmul_nonneg.
Qed.

(** X25. On arguments of the documented shapes, the variance-remainder
    ellipsoid that the set branch prints under "overapproximation lagrangian
    sigma" is centred at zero, and its shape is the diagonal array of the
    numbers [c_safety * (ub_sigm + sqrt(sigm_0)) ** 2]: every entry off the
    diagonal is zero. *)
Theorem onestep_set_variance_remainder_ellipsoid
    n_s n_u p_center gp K k L_mu L_sigm q_shape c_safety verbose p Q :
  set_documented_shapes n_s n_u p_center gp K k L_sigm q_shape verbose ->
  In (PrintEllipsoid p Q "overapproximation lagrangian sigma"%string)
     (fst (onestep_reachability p_center gp K k L_mu L_sigm (Some q_shape)
                                c_safety verbose)) ->
  let sigm_0 := snd (predict gp (transpose (p_center ++ k))) in
  let ub_sigm :=
    snd (compute_bounding_box_lagrangian p_center q_shape L_sigm K k 1 verbose) in
  p = zeros n_s 1
  /\ Q = diag_matrix (map (fun x => fmul c_safety (fmul x x))
                          (zip_with fadd ub_sigm (map fsqrt sigm_0)))
  /\ (forall i j, i <> j -> entry i j Q = fzero).
Proof.
  intros Hds Hin sigm_0 ub_sigm.
  pose proof (documented_ncols_K _ _ _ _ _ _ _ _ _ Hds) as HK.
  assert (Hlog : In (PrintEllipsoid p Q "overapproximation lagrangian sigma"%string)
                    (set_log p_center K k gp q_shape L_mu L_sigm c_safety verbose)).
  { destruct (Z.ltb_spec 0 verbose) as [Hpos|Hle].
    - destruct (Nat.eq_dec n_s 1) as [Hn|Hn].
      + rewrite (documented_run_raises n_s n_u _ _ _ _ _ L_mu _ c_safety _ Hds Hpos Hn)
          in Hin.
        cbn [fst In] in Hin.
        repeat (destruct Hin as [Hin|Hin]; [discriminate|]). contradiction.
      + rewrite (documented_run_returns n_s n_u _ _ _ _ _ L_mu _ c_safety _ Hds) in Hin
          by (intros _; exact Hn).
        exact Hin.
    - rewrite (documented_run_returns n_s n_u _ _ _ _ _ L_mu _ c_safety _ Hds) in Hin
        by (intros Hpos; exfalso; apply (Z.lt_irrefl 0);
            exact (Z.lt_le_trans _ _ _ Hpos Hle)).
      exact Hin. }
  clear Hin. unfold set_log in Hlog. rewrite HK in Hlog.
  destruct (0 <? verbose)%Z; cbn [app In] in Hlog;
    repeat (destruct Hlog as [Hlog|Hlog]; [try discriminate|]);
    try contradiction.
  injection Hlog as <- <-.
  split; [reflexivity|]. split; [reflexivity|].
  intros i j Hij. now apply diag_matrix_off_diagonal.
Qed.

End NonNegativeDiagonals.

(** * Concrete runs of the further properties *)

Module MoreRuns.
Import IntegerInstance IntegerLaws Inputs MoreInputs.
Local Open Scope Z_scope.

Ltac solve_shape := split; [reflexivity | repeat constructor].

Lemma shape_p2 : shape 2 1 p2.
Proof. solve_shape. Defined.

Lemma shape_K2 : shape 1 2 K2.
Proof. solve_shape. Defined.

Lemma shape_k2 : shape 1 1 k2.
Proof. solve_shape. Defined.

Lemma shape_q2 : shape 2 2 q2.
Proof. solve_shape. Defined.

Lemma shape_p1 : shape 1 1 p1.
Proof. solve_shape. Defined.

Lemma shape_K3 : shape 3 2 K3.
Proof. solve_shape. Defined.


Lemma shape_jac2 : shape 2 (2 + 1) [[1; 0; 1]; [0; 1; 2]].
Proof. solve_shape. Defined.

Lemma well_shaped_q2 verbose :
  set_well_shaped 2 1 p2 gp2 K2 k2 L2_sigm q2 verbose.
Proof.
  unfold set_well_shaped, shape; simpl.
  repeat split; try lia; repeat constructor.
Defined.

Lemma onestep_point_case_witness :
  snd (onestep_reachability p2 gp2 K2 k2 L2_mu L2_sigm None 2 1)
  = inr ([[2]; [3]], [[8; 0]; [0; 18]]).
Proof.
  exact (onestep_point_case 2 1 p2 gp2 K2 k2 L2_mu L2_sigm 2 1
           ltac:(lia) ltac:(lia) shape_p2 shape_K2 shape_k2
           eq_refl ltac:(simpl; lia)).
Defined.

Lemma onestep_point_one_dim_raises_witness :
  snd (onestep_reachability p1 gp1 K1 k1 L1 L1 None 1 0) = inl (ValueError Diag).
Proof.
  exact (onestep_point_one_dim_raises 1 p1 gp1 K1 k1 L1 L1 1 0
           ltac:(lia) shape_p1 shape_p1 shape_p1 eq_refl eq_refl).
Defined.

Lemma onestep_point_output_shapes_witness :
  exists p_1 q_1,
    snd (onestep_reachability p2 gp2 K2 k2 L2_mu L2_sigm None 2 1) = inr (p_1, q_1)
    /\ shape 2 1 p_1 /\ shape 2 2 q_1.
Proof.
  exact (onestep_point_output_shapes 2 1 p2 gp2 K2 k2 L2_mu L2_sigm 2 1
           ltac:(lia) ltac:(lia) shape_p2 shape_K2 shape_k2
           eq_refl eq_refl ltac:(lia)).
Defined.

Lemma const_gp_variance_nonneg (z : mat) :
  Forall (fle fzero) (snd (predict gp2 z)).
Proof. simpl. repeat constructor; lia. Defined.

Lemma onestep_point_shape_diagonal_nonneg_witness :
  (forall i j, i <> j -> entry i j [[8; 0]; [0; 18]] = 0)
  /\ (forall i, 0 <= entry i i [[8; 0]; [0; 18]]).
Proof.
  exact (onestep_point_shape_diagonal_nonneg p2 gp2 K2 k2 L2_mu L2_sigm 2 1
           [[2]; [3]] [[8; 0]; [0; 18]]
           const_gp_variance_nonneg ltac:(simpl; lia) eq_refl).
Defined.


Lemma onestep_point_prints_result_witness :
  exists Kp u,
    np_dot K2 p2 = inr Kp /\ np_add Kp k2 = inr u /\
    [Print (newline ++ "Applying action:")%string; PrintArray [[6]];
     PrintEllipsoid [[2]; [3]] [[8; 0]; [0; 18]] "uncertainty first state"]
    = [Print (newline ++ "Applying action:")%string; PrintArray u;
       PrintEllipsoid [[2]; [3]] [[8; 0]; [0; 18]] "uncertainty first state"].
Proof.
  exact (onestep_point_prints_result p2 gp2 K2 k2 L2_mu L2_sigm 2 1 _
           [[2]; [3]] [[8; 0]; [0; 18]] ltac:(lia) eq_refl).
Defined.

Lemma onestep_set_outcome_verbose_independent_witness :
  snd (onestep_reachability p2 gp2 K2 k2 L2_mu L2_sigm (Some q2) 2 0)
  = snd (onestep_reachability p2 gp2 K2 k2 L2_mu L2_sigm (Some q2) 2 1).
Proof.
  exact (onestep_set_outcome_verbose_independent 2 1 p2 gp2 K2 k2 L2_mu L2_sigm
           q2 2 0 1 (well_shaped_q2 0) (well_shaped_q2 1)
           (fun _ _ => eq_refl)).
Defined.

Lemma onestep_set_prints_when_quiet_witness :
  exists p_new Q_new p_1 q_1,
    onestep_reachability p2 gp2 K2 k2 L2_mu L2_sigm (Some q2) 2 0
    = ([PrintEllipsoid p_new Q_new "accumulated uncertainty current step";
        PrintEllipsoid p_1 q_1 "sum old and new uncertainty"],
       inr (p_1, q_1)).
Proof.
  exact (onestep_set_prints_when_quiet 2 1 p2 gp2 K2 k2 L2_mu L2_sigm q2 2 0
           (well_shaped_q2 0) ltac:(lia)).
Defined.


Lemma onestep_set_single_variance_raises_witness :
  onestep_reachability p1 gp1 K1 k1 L1 L1 (Some q1) 1 1
  = ([PrintEllipsoid p1 q1 "initial uncertainty ellipsoid";
      Print (newline ++ "Applying action:")%string; PrintArray k1],
     inl (ValueError Diag)).
Proof.
  exact (onestep_set_single_variance_raises 1 1 p1 gp1 K1 k1 L1 L1 q1 1 1
           ltac:(lia) ltac:(lia) shape_p1 shape_p1 ltac:(lia) eq_refl).
Defined.

Lemma onestep_point_c_safety_monotone_witness :
  [[2]; [3]] = [[2]; [3]] /\ mat_le [[8; 0]; [0; 18]] [[12; 0]; [0; 27]].
Proof.
  exact (onestep_point_c_safety_monotone 2 1 p2 gp2 K2 k2 L2_mu L2_sigm 2 3 0
           [[8; 0]; [0; 18]] [[12; 0]; [0; 27]] [[2]; [3]] [[2]; [3]]
           ltac:(lia) ltac:(lia) shape_p2 shape_K2 shape_k2 eq_refl
           (const_gp_variance_nonneg _) ltac:(simpl; lia) eq_refl eq_refl).
Defined.

Lemma multistep_gain_columns_mismatch_witness :
  multistep_reachability p2 gp2 [K_wide] [[3]] L2_mu L2_sigm None 2 1
  = ([], inl (ValueError Dot)).
Proof.
  exact (multistep_gain_columns_mismatch p2 gp2 K_wide [] [3] [] L2_mu L2_sigm
           None 2 1 ltac:(unfold nrows; simpl; lia)
           ltac:(unfold ncols, nrows; simpl; lia)).
Defined.

Lemma multistep_prints_first_step_witness :
  multistep_reachability p2 gp2 [K2] [[3]] L2_mu L2_sigm (Some q2) 2 1
  = ([Print (newline ++ "Applying action:")%string; PrintArray [[6]];
      PrintEllipsoid [[2]; [3]] [[8; 0]; [0; 18]] "uncertainty first state"],
     inl not_implemented).
Proof.
  exact (multistep_prints_first_step 2 1 p2 gp2 K2 [] [3] [] L2_mu L2_sigm
           (Some q2) 2 1 ltac:(lia) ltac:(lia) shape_p2 shape_K2 eq_refl
           eq_refl ltac:(simpl; lia) ltac:(lia)).
Defined.

Lemma onestep_point_action_rows_mismatch_witness :
  onestep_reachability p2 gp2 K3 [[1]; [2]] L2_mu L2_sigm None 2 1
  = ([], inl (ValueError Broadcast)).
Proof.
  exact (onestep_point_action_rows_mismatch 2 3 2 p2 gp2 K3 [[1]; [2]]
           L2_mu L2_sigm 2 1 ltac:(lia) shape_p2 shape_K3 eq_refl
           ltac:(lia) ltac:(lia) ltac:(lia)).
Defined.

Lemma onestep_point_broadcasts_single_offset_witness :
  onestep_reachability p2 gp2 K3 [[3]] L2_mu L2_sigm None 2 1
  = onestep_reachability p2 gp2 K3 k3 L2_mu L2_sigm None 2 1.
Proof.
  exact (onestep_point_broadcasts_single_offset 2 3 p2 gp2 K3 3 L2_mu L2_sigm 2 1
           ltac:(lia) ltac:(lia) shape_p2 shape_K3).
Defined.

Lemma onestep_set_vstack_mismatch_witness :
  onestep_reachability p2 gp2 K2 [[3; 4]] L2_mu L2_sigm (Some q2) 2 1
  = ([PrintEllipsoid p2 q2 "initial uncertainty ellipsoid"],
     inl (ValueError Vstack)).
Proof.
  exact (onestep_set_vstack_mismatch p2 gp2 K2 [[3; 4]] L2_mu L2_sigm q2 2 1
           ltac:(unfold nrows; simpl; lia) ltac:(unfold nrows; simpl; lia)
           ltac:(unfold ncols; simpl; lia)).
Defined.


Lemma onestep_set_bounds_mismatch_witness :
  snd (onestep_reachability p2 gp2 K2 k2 L2_mu [1; 2; 3] (Some q2) 2 0)
  = inl (ValueError Broadcast).
Proof.
  exact (onestep_set_bounds_mismatch 2 1 p2 K2 k2 gp2 L2_mu [1; 2; 3] 2 0
           ltac:(lia) ltac:(lia) shape_p2 shape_K2 shape_k2 eq_refl shape_jac2
           2%nat 3%nat q2 shape_q2 eq_refl eq_refl
           ltac:(lia) ltac:(lia) ltac:(lia)).
Defined.

Lemma onestep_set_asks_model_at_one_row_witness :
  onestep_reachability p2 gp2 K2 k2 L2_mu L2_sigm (Some q2) 2 1
  = onestep_reachability p2 row_gp K2 k2 L2_mu L2_sigm (Some q2) 2 1.
Proof.
  exact (onestep_set_asks_model_at_one_row p2 gp2 row_gp K2 k2 L2_mu L2_sigm
           q2 2 1 eq_refl eq_refl).
Defined.

Lemma onestep_point_uses_predict_only_witness :
  @onestep_reachability ZScalar toy_utils p2 gp2 K2 k2 L2_mu L2_sigm None 2 1
  = @onestep_reachability ZScalar other_utils p2 gp2_flat K2 k2 L2_mu L2_sigm
                          None 2 1.
Proof.
  exact (onestep_point_uses_predict_only toy_utils other_utils p2 gp2 gp2_flat
           K2 k2 L2_mu L2_sigm 2 1 (fun _ => eq_refl)).
Defined.

Lemma onestep_set_variance_remainder_ellipsoid_witness :
  set_documented_shapes 2 1 p2 gp2 K2 k2 L2_sigm q2 1
  /\ [[0]; [0]] = zeros 2 1
  /\ [[18; 0]; [0; 50]]
     = diag_matrix (map (fun x => 2 * (x * x)) (zip_with Z.add [1; 2] (map Z.sqrt [4; 9])))
  /\ (forall i j, i <> j -> entry i j [[18; 0]; [0; 50]] = 0).
Proof.
  assert (Hin : In (PrintEllipsoid [[0]; [0]] [[18; 0]; [0; 50]]
                                   "overapproximation lagrangian sigma")
                   (fst (onestep_reachability p2 gp2 K2 k2 L2_mu L2_sigm
                                              (Some q2) 2 1)))
    by (do 5 right; left; reflexivity).
  split; [exact (Runs.documented_shapes_2 1)|].
  exact (onestep_set_variance_remainder_ellipsoid 2 1 p2 gp2 K2 k2 L2_mu L2_sigm
           q2 2 1 [[0]; [0]] [[18; 0]; [0; 50]] (Runs.documented_shapes_2 1) Hin).
Defined.

End MoreRuns.
